(** * TJ-II HIBP-1 geometry

    A model of [define_geometry] (define_geometry.py): the function that
    fills a [Geometry] object with the beamline angles, the coordinates of
    the plates along the primary and the secondary beamline, the chamber
    contours and the two contour tables read from disk.

    Conventions of the model.
    - Python floats are read as exact real numbers ([R]); rounding is not
      represented, so an equation proved here is the exact-arithmetic
      content of a statement that holds "up to rounding" on the machine.
    - A Python [dict] is an insertion-ordered association list ([Dict]).
    - The numpy arrays stored in [r_dict] are mutated in place by the last
      loop of the function and one of them is stored under two names, so
      [r_dict] maps a name to a reference into the store [arrays] of the
      object, not to a value.
    - Exceptions are values of [exn]; a computation is a function from the
      object under construction to an exception or a result. *)

From Stdlib Require Import Reals Lra String List Bool Arith Lia.
Import ListNotations.

Open Scope string_scope.
Open Scope R_scope.

(** ** Three-component arrays *)

Record vec : Type := mkvec { vx : R; vy : R; vz : R }.

Definition vadd (a b : vec) : vec :=
  mkvec (vx a + vx b) (vy a + vy b) (vz a + vz b).

Definition vsub (a b : vec) : vec :=
  mkvec (vx a - vx b) (vy a - vy b) (vz a - vz b).

Definition vscale (c : R) (a : vec) : vec :=
  mkvec (c * vx a) (c * vy a) (c * vz a).

Definition norm (a : vec) : R :=
  sqrt (vx a * vx a + vy a * vy a + vz a * vz a).

(** Euclidean distance between two points. *)
Definition distance (a b : vec) : R := norm (vsub a b).

(** ** Insertion-ordered dictionaries with string keys *)

Module Dict.

Definition t (V : Type) : Type := list (string * V).

Definition empty {V : Type} : t V := [].

Fixpoint get {V : Type} (k : string) (d : t V) : option V :=
  match d with
  | [] => None
  | (k', v) :: d' => if String.eqb k k' then Some v else get k d'
  end.

(** [d[k] = v]: an existing key keeps its position, a new key goes last. *)
Fixpoint set {V : Type} (k : string) (v : V) (d : t V) : t V :=
  match d with
  | [] => [(k, v)]
  | (k', v') :: d' =>
      if String.eqb k k' then (k', v) :: d' else (k', v') :: set k v d'
  end.

Definition keys {V : Type} (d : t V) : list string := map fst d.

(** [d.update(e)]: the items of [e] are stored in [d] in the order of [e]. *)
Definition update {V : Type} (d e : t V) : t V :=
  fold_left (fun acc kv => set (fst kv) (snd kv) acc) e d.

End Dict.

(** ** The Geometry object *)

Definition loc : Type := nat.

(** A table of numbers as [np.loadtxt] returns it: one list per row. *)
Definition table : Type := list (list R).

(** How an entry of [r_dict] was written: by a plain item assignment, or by
    [add_coords] from a named reference point.  This is bookkeeping of the
    model ([history] below), the Python object holds nothing of the kind. *)
Inductive origin : Type :=
| Direct
| Derived (ref_point : string) (dist : R) (angles : vec).

Record Geometry : Type := mkGeometry {
  geom_R : option R;                 (* geom.R *)
  r_plasma : option R;
  elon : option R;
  angles_dict : Dict.t vec;
  r_dict : Dict.t loc;
  chamb_ent : option (list (R * R));
  chamb_ext : option (list (R * R));
  chamb : option (list (R * R));
  camera : option table;
  sep : option table;
  arrays : list vec;                 (* the arrays [r_dict] refers to *)
  history : list (string * origin)   (* writes to [r_dict], oldest first *)
}.

(** Modelled from the spec: [hibplib.Geometry.__init__] is not among the
    sources.  The spec describes the object as an aggregate of scalar
    parameters, a name-to-angles mapping, a name-to-coordinate mapping and
    contour lists, created empty and then filled by the builder. *)
Definition Geometry_init : Geometry :=
  mkGeometry None None None Dict.empty Dict.empty None None None None None
             [] [].

Definition with_geom_R (x : R) (g : Geometry) : Geometry :=
  mkGeometry (Some x) (r_plasma g) (elon g) (angles_dict g) (r_dict g)
    (chamb_ent g) (chamb_ext g) (chamb g) (camera g) (sep g)
    (arrays g) (history g).

Definition with_r_plasma (x : R) (g : Geometry) : Geometry :=
  mkGeometry (geom_R g) (Some x) (elon g) (angles_dict g) (r_dict g)
    (chamb_ent g) (chamb_ext g) (chamb g) (camera g) (sep g)
    (arrays g) (history g).

Definition with_elon (x : R) (g : Geometry) : Geometry :=
  mkGeometry (geom_R g) (r_plasma g) (Some x) (angles_dict g) (r_dict g)
    (chamb_ent g) (chamb_ext g) (chamb g) (camera g) (sep g)
    (arrays g) (history g).

Definition with_angles_dict (d : Dict.t vec) (g : Geometry) : Geometry :=
  mkGeometry (geom_R g) (r_plasma g) (elon g) d (r_dict g)
    (chamb_ent g) (chamb_ext g) (chamb g) (camera g) (sep g)
    (arrays g) (history g).

Definition with_r_dict (d : Dict.t loc) (h : list (string * origin))
    (g : Geometry) : Geometry :=
  mkGeometry (geom_R g) (r_plasma g) (elon g) (angles_dict g) d
    (chamb_ent g) (chamb_ext g) (chamb g) (camera g) (sep g)
    (arrays g) h.

Definition with_chamb_ent (c : list (R * R)) (g : Geometry) : Geometry :=
  mkGeometry (geom_R g) (r_plasma g) (elon g) (angles_dict g) (r_dict g)
    (Some c) (chamb_ext g) (chamb g) (camera g) (sep g)
    (arrays g) (history g).

Definition with_chamb_ext (c : list (R * R)) (g : Geometry) : Geometry :=
  mkGeometry (geom_R g) (r_plasma g) (elon g) (angles_dict g) (r_dict g)
    (chamb_ent g) (Some c) (chamb g) (camera g) (sep g)
    (arrays g) (history g).

Definition with_chamb (c : list (R * R)) (g : Geometry) : Geometry :=
  mkGeometry (geom_R g) (r_plasma g) (elon g) (angles_dict g) (r_dict g)
    (chamb_ent g) (chamb_ext g) (Some c) (camera g) (sep g)
    (arrays g) (history g).

Definition with_camera (c : table) (g : Geometry) : Geometry :=
  mkGeometry (geom_R g) (r_plasma g) (elon g) (angles_dict g) (r_dict g)
    (chamb_ent g) (chamb_ext g) (chamb g) (Some c) (sep g)
    (arrays g) (history g).

Definition with_sep (c : table) (g : Geometry) : Geometry :=
  mkGeometry (geom_R g) (r_plasma g) (elon g) (angles_dict g) (r_dict g)
    (chamb_ent g) (chamb_ext g) (chamb g) (camera g) (Some c)
    (arrays g) (history g).

Definition with_arrays (a : list vec) (g : Geometry) : Geometry :=
  mkGeometry (geom_R g) (r_plasma g) (elon g) (angles_dict g) (r_dict g)
    (chamb_ent g) (chamb_ext g) (chamb g) (camera g) (sep g)
    a (history g).

(** The coordinate stored under a name: the array its entry refers to. *)
Definition coord (g : Geometry) (k : string) : option vec :=
  match Dict.get k (r_dict g) with
  | Some l => nth_error (arrays g) l
  | None => None
  end.

(** The angle triple stored under a name. *)
Definition angles (g : Geometry) (k : string) : option vec :=
  Dict.get k (angles_dict g).

(** ** Exceptions and computations *)

Inductive exn : Type :=
| KeyError (k : string)              (* a dict has no such key *)
| IndexError (i : nat)               (* an array has no such index *)
| FileNotFoundError (path : string)  (* np.loadtxt: no such file *)
| PermissionError (path : string)    (* np.loadtxt: the file cannot be read *)
| ValueError (path : string)         (* np.loadtxt: a row is not numeric *)
| DanglingRef (l : loc).             (* a reference to no array; no Python
                                        program reaches this *)

Definition M (A : Type) : Type := Geometry -> exn + (A * Geometry).

Definition ret {A : Type} (a : A) : M A := fun g => inr (a, g).

Definition raise {A : Type} (e : exn) : M A := fun _ => inl e.

Definition bind {A B : Type} (m : M A) (k : A -> M B) : M B :=
  fun g =>
    match m g with
    | inl e => inl e
    | inr (a, g') => k a g'
    end.

Notation "x <- m ;; k" := (bind m (fun x => k))
  (at level 61, m at next level, right associativity).
Notation "m ;; k" := (bind m (fun _ => k))
  (at level 61, right associativity).

Definition modify (f : Geometry -> Geometry) : M unit :=
  fun g => inr (tt, f g).

Fixpoint for_each {A : Type} (xs : list A) (body : A -> M unit) : M unit :=
  match xs with
  | [] => ret tt
  | x :: xs' => body x ;; for_each xs' body
  end.

(** The outcome of a computation started on a given object. *)
Definition exec {A : Type} (m : M A) (g : Geometry) : exn + Geometry :=
  match m g with
  | inl e => inl e
  | inr (_, g') => inr g'
  end.

(** ** Operations on the object *)

(** [geom.angles_dict[k]] *)
Definition getitem_angles (k : string) : M vec :=
  fun g =>
    match Dict.get k (angles_dict g) with
    | Some a => inr (a, g)
    | None => inl (KeyError k)
    end.

(** [geom.r_dict[k]]: the reference stored under [k]. *)
Definition getitem_r (k : string) : M loc :=
  fun g =>
    match Dict.get k (r_dict g) with
    | Some l => inr (l, g)
    | None => inl (KeyError k)
    end.

(** Writing an entry of [r_dict], with the way it was produced. *)
Definition store_r (k : string) (l : loc) (o : origin) : M unit :=
  modify (fun g =>
    with_r_dict (Dict.set k l (r_dict g)) (history g ++ [(k, o)]) g).

(** [geom.r_dict[k] = <the array at l>] *)
Definition setitem_r (k : string) (l : loc) : M unit := store_r k l Direct.

(** [np.array([x, y, z])]: a new array. *)
Definition np_array (v : vec) : M loc :=
  fun g => inr (length (arrays g), with_arrays (arrays g ++ [v]) g).

(** The contents of the array at [l]. *)
Definition deref (l : loc) : M vec :=
  fun g =>
    match nth_error (arrays g) l with
    | Some v => inr (v, g)
    | None => inl (DanglingRef l)
    end.

Fixpoint list_set {A : Type} (n : nat) (x : A) (l : list A) : list A :=
  match l, n with
  | [], _ => []
  | _ :: l', O => x :: l'
  | y :: l', S n' => y :: list_set n' x l'
  end.

(** [arr[i] += d] on the array at [l], in place. *)
Definition iadd_item (l : loc) (i : nat) (d : R) : M unit :=
  v <- deref l ;;
  match i with
  | 0%nat =>
      modify (fun g =>
        with_arrays (list_set l (mkvec (vx v + d) (vy v) (vz v)) (arrays g)) g)
  | 1%nat =>
      modify (fun g =>
        with_arrays (list_set l (mkvec (vx v) (vy v + d) (vz v)) (arrays g)) g)
  | 2%nat =>
      modify (fun g =>
        with_arrays (list_set l (mkvec (vx v) (vy v) (vz v + d)) (arrays g)) g)
  | _ => raise (IndexError i)
  end.

(** ** Files *)

(** What [np.loadtxt] finds at a path. *)
Inductive file : Type :=
| NoFile
| Unreadable
| Malformed
| Rows (t : table).

Definition filesystem : Type := string -> file.

(** [np.loadtxt(path)] *)
Definition loadtxt (fs : filesystem) (path : string) : M table :=
  match fs path with
  | NoFile => raise (FileNotFoundError path)
  | Unreadable => raise (PermissionError path)
  | Malformed => raise (ValueError path)
  | Rows t => ret t
  end.

(** ** Constants of [define_geometry] *)

(* alpha and beta angles of the PRIMARY beamline [deg] *)
Definition dalpha : R := -1.2.
Definition dbeta : R := 11.0.
Definition alpha_prim : R := 75.2 + dalpha.
Definition beta_prim : R := -22 + dbeta.
Definition gamma_prim : R := 0.

(* coordinates of the injection port [m] *)
Definition xport_in : R := 1.34817.
Definition yport_in : R := 0.8658.
Definition zport_in : R := 0.

(* distances along the primary beamline [m] *)
Definition dist_A2 : R := 0.2305.
Definition dist_B2 : R := 0.19.
Definition dist_B1 : R := 0.39.
Definition dist_A1 : R := 0.18.
Definition dist_r0 : R := 0.2.

(* coordinates of the output port [m] *)
Definition xport_out : R := 2.3786.
Definition yport_out : R := -0.38.
Definition zport_out : R := -0.03677 + 0.02.

(* alpha and beta angles of the SECONDARY beamline [deg] *)
Definition alpha_sec : R := 0.
Definition beta_sec : R := 13.15.
Definition gamma_sec : R := 0.

(* distances along the secondary beamline [m] *)
Definition dist_aim : R := 0.166.
Definition dist_B3 : R := 0.222.
Definition dist_A3 : R := 0.2.
Definition dist_s : R := 0.63.

Definition prim_angles : Dict.t vec :=
  [("r0", mkvec alpha_prim beta_prim gamma_prim);
   ("A1", mkvec alpha_prim beta_prim gamma_prim);
   ("B1", mkvec alpha_prim beta_prim gamma_prim);
   ("B2", mkvec alpha_prim beta_prim gamma_prim);
   ("A2", mkvec alpha_prim beta_prim gamma_prim)].

Definition sec_angles : Dict.t vec :=
  [("aim", mkvec alpha_sec beta_sec gamma_sec);
   ("A3", mkvec alpha_sec beta_sec gamma_sec);
   ("B3", mkvec alpha_sec beta_sec gamma_sec);
   ("an", mkvec alpha_sec beta_sec gamma_sec)].

Definition chamb_ent_points : list (R * R) :=
  [(0.8, 0.5805); (1.1, 0.5805); (1.43, 0.5805); (1.8, 0.5805)].

Definition chamb_ext_points : list (R * R) :=
  [(1.89, -0.28); (1.89, 0.0); (1.89, -0.66); (1.89, -0.9);
   (1.58, -0.52); (1.58, -0.9)].

Definition chamb_points : list (R * R) :=
  [(1.415, -0.07136); (1.4007, -0.04931);
   (1.4007, -0.04931); (1.3919, -0.02453);
   (1.3919, -0.02453); (1.389, 0.00162);
   (1.389, 0.00162); (1.3925, 0.0277);
   (1.3925, 0.0277); (1.4021, 0.05218);
   (1.4021, 0.05218); (1.416, 0.07456);
   (1.416, 0.07456); (1.4302, 0.09681);
   (1.4302, 0.09681); (1.4443, 0.11909)].

(** The two paths handed to [np.loadtxt]. *)
Definition camera_path : string := "TJII_camera.dat".

Definition sep_path (config : string) : string :=
  "configs//" ++ config ++ ".txt".

(** ** The builder *)

Section Builder.

(** The unit vector an angle triple (alpha, beta, gamma, in degrees)
    stands for.  The rotation convention belongs to hibplib and is left
    open here; where a result needs the vector to have length one, it
    says so. *)
Variable direction : vec -> vec.

(** Modelled from the spec: [hibplib.Geometry.add_coords] is not among
    the sources.  The spec gives it as: from a parent point P, an angle
    triple and a scalar distance d, the new point is P translated by d
    along the direction the angle triple encodes, and it is stored under
    the new name.  The parent is named by its key in [r_dict]. *)
Definition add_coords (name ref_point : string) (dist : R) (angs : vec)
    : M unit :=
  l0 <- getitem_r ref_point ;;
  r0 <- deref l0 ;;
  l <- np_array (vadd r0 (vscale dist (direction angs))) ;;
  store_r name l (Derived ref_point dist angs).

(** The [print] lines: the text (and [np.round]) is not represented, the
    lookups are, since each may raise [KeyError]. *)
Definition print_info : M unit :=
  _ <- getitem_angles "r0" ;;
  _ <- getitem_angles "A3" ;;
  l <- getitem_r "r0" ;; _ <- deref l ;;
  l <- getitem_r "aim" ;; _ <- deref l ;;
  l <- getitem_r "slit" ;; _ <- deref l ;;
  ret tt.

(** The body of the closing loop: [geom.r_dict[key][0] += dx] and the
    same for the indices 1 and 2, with the three increments as
    parameters. *)
Definition shift_one (dx dy dz : R) (key : string) : M unit :=
  l <- getitem_r key ;; iadd_item l 0 dx ;;
  l <- getitem_r key ;; iadd_item l 1 dy ;;
  l <- getitem_r key ;; iadd_item l 2 dz.

(** The closing loop, [for key in geom.r_dict.keys(): ...]. *)
Definition shift_coords (dx dy dz : R) : M unit :=
  ks <- (fun g => inr (Dict.keys (r_dict g), g)) ;;
  for_each ks (shift_one dx dy dz).

(** The part of the function before the files are read: parameters,
    angles and coordinates of both beamlines, chamber contours. *)
Definition build_beamlines : M unit :=
  (* plasma parameters *)
  modify (with_geom_R 1.5) ;;
  modify (with_r_plasma 0.4) ;;
  modify (with_elon 1.0) ;;
  (* PRIMARY beamline geometry *)
  modify (fun g =>
    with_angles_dict (Dict.update (angles_dict g) prim_angles) g) ;;
  l <- np_array (mkvec xport_in yport_in zport_in) ;;
  setitem_r "port_in" l ;;
  a <- getitem_angles "A2" ;; add_coords "A2" "port_in" dist_A2 a ;;
  a <- getitem_angles "B2" ;; add_coords "B2" "A2" dist_B2 a ;;
  a <- getitem_angles "B1" ;; add_coords "B1" "B2" dist_B1 a ;;
  a <- getitem_angles "A1" ;; add_coords "A1" "B1" dist_A1 a ;;
  a <- getitem_angles "r0" ;; add_coords "r0" "A1" dist_r0 a ;;
  (* output port *)
  l <- np_array (mkvec xport_out yport_out zport_out) ;;
  setitem_r "port_out" l ;;
  (* SECONDARY beamline geometry *)
  modify (fun g =>
    with_angles_dict (Dict.update (angles_dict g) sec_angles) g) ;;
  a <- getitem_angles "A3" ;; add_coords "B3" "port_out" dist_B3 a ;;
  a <- getitem_angles "A3" ;; add_coords "aim" "B3" (dist_A3 - 0.075) a ;;
  a <- getitem_angles "A3" ;; add_coords "A3" "B3" dist_A3 a ;;
  a <- getitem_angles "A3" ;; add_coords "slit" "B3" dist_s a ;;
  l <- getitem_r "slit" ;; setitem_r "an" l ;;
  print_info ;;
  (* TJ-II GEOMETRY *)
  modify (with_chamb_ent chamb_ent_points) ;;
  modify (with_chamb_ext chamb_ext_points) ;;
  modify (with_chamb chamb_points).

(** [geom.camera = np.loadtxt(...)] and [geom.sep = np.loadtxt(...)] *)
Definition load_contours (fs : filesystem) (config : string) : M unit :=
  t <- loadtxt fs camera_path ;; modify (with_camera t) ;;
  t <- loadtxt fs (sep_path config) ;; modify (with_sep t).

(** The body of [define_geometry], run on the new object. *)
Definition define_geometry_body (fs : filesystem) (config : string)
    : M unit :=
  build_beamlines ;;
  load_contours fs config ;;
  shift_coords 0.0 0.0 0.0.

(** [define_geometry(config)]: the returned object, or the exception
    that reaches the caller. *)
Definition define_geometry (fs : filesystem) (config : string)
    : exn + Geometry :=
  exec (define_geometry_body fs config) Geometry_init.

End Builder.

(** ** One admissible rotation convention *)

Definition deg2rad (x : R) : R := x * PI / 180.

(** Modelled from the spec: the direction "encoded by rotating a reference
    axis through alpha/beta/gamma" ([hibplib.calc_vector] is not among the
    sources).  Here the reference axis is X, alpha lifts it towards Y,
    beta turns the result about Y, and gamma, a roll about the axis
    itself, does not move it.  Used as a concrete instance of [direction]
    only; no result below depends on this choice. *)
Definition axis_direction (a : vec) : vec :=
  mkvec (cos (deg2rad (vx a)) * cos (deg2rad (vy a)))
        (sin (deg2rad (vx a)))
        (- cos (deg2rad (vx a)) * sin (deg2rad (vy a))).

Definition sample_camera : table := [[1.0; 0.5]; [1.2; 0.6]].

Definition sample_sep : table := [[1.5; 0.1]; [1.6; 0.2]; [1.7; 0.1]].

(** A file system with a camera contour and the separatrix of the
    configuration [100_44_64], and nothing else. *)
Definition sample_fs : filesystem :=
  fun path =>
    if String.eqb path "TJII_camera.dat" then Rows sample_camera
    else if String.eqb path "configs//100_44_64.txt" then Rows sample_sep
    else NoFile.

(** The same two files next to an unrelated one. *)
Definition sample_fs' : filesystem :=
  fun path =>
    if String.eqb path "notes.txt" then Malformed else sample_fs path.

(** A file system with other contours, for the configuration
    [101_42_64]. *)
Definition other_fs : filesystem :=
  fun path =>
    if String.eqb path "TJII_camera.dat" then Rows sample_sep
    else if String.eqb path "configs//101_42_64.txt" then Rows sample_camera
    else Unreadable.

(** [sample_fs] with a camera contour that has a non-numeric row. *)
Definition sample_fs_bad_camera : filesystem :=
  fun path =>
    if String.eqb path "TJII_camera.dat" then Malformed else sample_fs path.

(** A file system whose camera contour has a non-numeric row and that has
    no separatrix file at all. *)
Definition broken_camera_fs : filesystem :=
  fun path =>
    if String.eqb path "TJII_camera.dat" then Malformed else NoFile.

(** ** The object after the beamlines are built *)

Section Built.

Variable direction : vec -> vec.

Definition prim_triple : vec := mkvec alpha_prim beta_prim gamma_prim.
Definition sec_triple : vec := mkvec alpha_sec beta_sec gamma_sec.

Definition at_port_in : vec := mkvec xport_in yport_in zport_in.
Definition at_A2 : vec :=
  vadd at_port_in (vscale dist_A2 (direction prim_triple)).
Definition at_B2 : vec :=
  vadd at_A2 (vscale dist_B2 (direction prim_triple)).
Definition at_B1 : vec :=
  vadd at_B2 (vscale dist_B1 (direction prim_triple)).
Definition at_A1 : vec :=
  vadd at_B1 (vscale dist_A1 (direction prim_triple)).
Definition at_r0 : vec :=
  vadd at_A1 (vscale dist_r0 (direction prim_triple)).

Definition at_port_out : vec := mkvec xport_out yport_out zport_out.
Definition at_B3 : vec :=
  vadd at_port_out (vscale dist_B3 (direction sec_triple)).
Definition at_aim : vec :=
  vadd at_B3 (vscale (dist_A3 - 0.075) (direction sec_triple)).
Definition at_A3 : vec :=
  vadd at_B3 (vscale dist_A3 (direction sec_triple)).
Definition at_slit : vec :=
  vadd at_B3 (vscale dist_s (direction sec_triple)).

Definition built : Geometry :=
  {| geom_R := Some 1.5;
     r_plasma := Some 0.4;
     elon := Some 1.0;
     angles_dict :=
       [("r0", prim_triple); ("A1", prim_triple); ("B1", prim_triple);
        ("B2", prim_triple); ("A2", prim_triple);
        ("aim", sec_triple); ("A3", sec_triple); ("B3", sec_triple);
        ("an", sec_triple)];
     r_dict :=
       [("port_in", 0%nat); ("A2", 1%nat); ("B2", 2%nat); ("B1", 3%nat);
        ("A1", 4%nat); ("r0", 5%nat); ("port_out", 6%nat);
        ("B3", 7%nat); ("aim", 8%nat); ("A3", 9%nat); ("slit", 10%nat);
        ("an", 10%nat)];
     chamb_ent := Some chamb_ent_points;
     chamb_ext := Some chamb_ext_points;
     chamb := Some chamb_points;
     camera := None;
     sep := None;
     arrays :=
       [at_port_in; at_A2; at_B2; at_B1; at_A1; at_r0;
        at_port_out; at_B3; at_aim; at_A3; at_slit];
     history :=
       [("port_in", Direct);
        ("A2", Derived "port_in" dist_A2 prim_triple);
        ("B2", Derived "A2" dist_B2 prim_triple);
        ("B1", Derived "B2" dist_B1 prim_triple);
        ("A1", Derived "B1" dist_A1 prim_triple);
        ("r0", Derived "A1" dist_r0 prim_triple);
        ("port_out", Direct);
        ("B3", Derived "port_out" dist_B3 sec_triple);
        ("aim", Derived "B3" (dist_A3 - 0.075) sec_triple);
        ("A3", Derived "B3" dist_A3 sec_triple);
        ("slit", Derived "B3" dist_s sec_triple);
        ("an", Direct)] |}.

(** The object [define_geometry] returns when both files load. *)
Definition finished (c s : table) : Geometry :=
  with_sep s (with_camera c built).

End Built.

(** The object [define_geometry] returns on [sample_fs]. *)
Definition sample_geometry : Geometry :=
  finished axis_direction sample_camera sample_sep.

(** ** Vocabulary of the statements *)

(** The object as the closing loop finds it. *)
Definition before_shift (direction : vec -> vec) (fs : filesystem)
    (config : string) : exn + Geometry :=
  exec (build_beamlines direction ;; load_contours fs config) Geometry_init.

(** The [add_coords] calls of the source, in order: name, reference
    point, distance. *)
Definition beamline_steps : list (string * string * R) :=
  [("A2", "port_in", dist_A2);
   ("B2", "A2", dist_B2);
   ("B1", "B2", dist_B1);
   ("A1", "B1", dist_A1);
   ("r0", "A1", dist_r0);
   ("B3", "port_out", dist_B3);
   ("aim", "B3", dist_A3 - 0.075);
   ("A3", "B3", dist_A3);
   ("slit", "B3", dist_s)].

(** A recorded call without its angle triple. *)
Definition step_of (c : string * string * R * vec) : string * string * R :=
  fst c.

Definition step_name (c : string * string * R * vec) : string :=
  fst (fst (fst c)).

Definition step_parent (c : string * string * R * vec) : string :=
  snd (fst (fst c)).

Definition step_dist (c : string * string * R * vec) : R :=
  snd (fst c).

Definition step_angles (c : string * string * R * vec) : vec :=
  snd c.

(** Every reference held by [r_dict] points to an array of the object. *)
Definition well_formed (g : Geometry) : Prop :=
  Forall (fun kv => (snd kv < length (arrays g))%nat) (r_dict g).

(** The [add_coords] calls recorded in a history, oldest first, as
    (name, reference point, distance, angle triple). *)
Fixpoint derived_calls (h : list (string * origin))
    : list (string * string * R * vec) :=
  match h with
  | [] => []
  | (k, Direct) :: h' => derived_calls h'
  | (k, Derived p d a) :: h' => (k, p, d, a) :: derived_calls h'
  end.



(** Going through a history from the oldest write on: at each
    [add_coords] the reference point is among the names written so far. *)
Fixpoint parents_stored_before (seen : list string)
    (h : list (string * origin)) : bool :=
  match h with
  | [] => true
  | (k, Direct) :: h' => parents_stored_before (k :: seen) h'
  | (k, Derived p _ _) :: h' =>
      existsb (String.eqb p) seen && parents_stored_before (k :: seen) h'
  end.

(** In [g], the point stored under [child] lies at [parent] moved by
    [d] along [u]. *)
Definition placed (g : Geometry) (child parent : string) (d : R) (u : vec)
    : Prop :=
  exists c p,
    coord g child = Some c /\ coord g parent = Some p /\
    c = vadd p (vscale d u).

(** In [g], the points stored under [child] and [parent] are [d] apart. *)
Definition apart (g : Geometry) (child parent : string) (d : R) : Prop :=
  exists c p,
    coord g child = Some c /\ coord g parent = Some p /\ distance c p = d.

(** Every attribute the builder assigns has a value. *)
Definition populated (g : Geometry) : Prop :=
  geom_R g <> None /\ r_plasma g <> None /\ elon g <> None /\
  chamb_ent g <> None /\ chamb_ext g <> None /\ chamb g <> None /\
  camera g <> None /\ sep g <> None /\
  Dict.keys (angles_dict g) =
    ["r0"; "A1"; "B1"; "B2"; "A2"; "aim"; "A3"; "B3"; "an"] /\
  Dict.keys (r_dict g) =
    ["port_in"; "A2"; "B2"; "B1"; "A1"; "r0";
     "port_out"; "B3"; "aim"; "A3"; "slit"; "an"] /\
  well_formed g.

(** The effect of one round of the closing loop on the array at [l]. *)
Definition bump (off : vec) (arrs : list vec) (l : loc) : list vec :=
  match nth_error arrs l with
  | Some v => list_set l (vadd v off) arrs
  | None => arrs
  end.

(** The references the closing loop goes through for the names [ks]. *)
Definition visited (d : Dict.t loc) (ks : list string) : list loc :=
  flat_map (fun k => match Dict.get k d with
                     | Some l => [l]
                     | None => []
                     end) ks.

(** The exception [np.loadtxt] raises on a path, if any. *)
Definition load_error (fs : filesystem) (path : string) : option exn :=
  match fs path with
  | NoFile => Some (FileNotFoundError path)
  | Unreadable => Some (PermissionError path)
  | Malformed => Some (ValueError path)
  | Rows _ => None
  end.

(** The point at signed distance [t] from [p] along [u]. *)
Definition along (p u : vec) (t : R) : vec := vadd p (vscale t u).

(** The names of the primary beamline with the distances of the
    [add_coords] calls summed up from the injection port. *)
Definition primary_stations : list (string * R) :=
  [("port_in", 0);
   ("A2", dist_A2);
   ("B2", dist_A2 + dist_B2);
   ("B1", dist_A2 + dist_B2 + dist_B1);
   ("A1", dist_A2 + dist_B2 + dist_B1 + dist_A1);
   ("r0", dist_A2 + dist_B2 + dist_B1 + dist_A1 + dist_r0)].

(** The names of the secondary beamline with their distances from the
    output port: B3 is placed from the port, the others from B3. *)
Definition secondary_stations : list (string * R) :=
  [("port_out", 0);
   ("B3", dist_B3);
   ("aim", dist_B3 + (dist_A3 - 0.075));
   ("A3", dist_B3 + dist_A3);
   ("slit", dist_B3 + dist_s);
   ("an", dist_B3 + dist_s)].

(** The number of names among [ks] whose entry in [d] refers to [l]. *)
Definition name_count (d : Dict.t loc) (ks : list string) (l : loc) : nat :=
  count_occ Nat.eq_dec (visited d ks) l.

(** Two objects that differ at most in the two contour tables. *)
Definition same_but_contours (g1 g2 : Geometry) : Prop :=
  geom_R g1 = geom_R g2 /\ r_plasma g1 = r_plasma g2 /\
  elon g1 = elon g2 /\
  angles_dict g1 = angles_dict g2 /\ r_dict g1 = r_dict g2 /\
  chamb_ent g1 = chamb_ent g2 /\ chamb_ext g1 = chamb_ext g2 /\
  chamb g1 = chamb g2 /\ arrays g1 = arrays g2.

(** Membership in a list that is written out. *)
Ltac in_list := cbn [In]; repeat (first [left; reflexivity | right]).

(** The coordinate stored under a name that is written out. *)
Ltac read_coord :=
  cbn [coord finished with_sep with_camera built r_dict arrays Dict.get
       nth_error String.eqb Ascii.eqb Bool.eqb fst snd].

(** * Properties *)

(** ** Lists, dictionaries and arrays *)

Lemma list_set_same {A : Type} (l : list A) (n : nat) (x : A) :
  nth_error l n = Some x -> list_set n x l = l.
Proof.
  revert n; induction l as [|y l IH]; intros [|n] H; simpl in *;
    try discriminate; try reflexivity.
  - now inversion H.
  - now rewrite IH.
Qed.

Lemma list_set_length {A : Type} (l : list A) (n : nat) (x : A) :
  length (list_set n x l) = length l.
Proof.
  revert n; induction l as [|y l IH]; intros [|n]; simpl; auto.
Qed.

Lemma nth_error_list_set_eq {A : Type} (l : list A) (n : nat) (x : A) :
  (n < length l)%nat -> nth_error (list_set n x l) n = Some x.
Proof.
  revert n; induction l as [|y l IH]; intros [|n] H; simpl in *;
    try lia; auto.
  apply IH; lia.
Qed.

Lemma with_arrays_same (g : Geometry) : with_arrays (arrays g) g = g.
Proof. now destruct g. Qed.

Lemma dict_get_in_keys {V : Type} (d : Dict.t V) (k : string) :
  In k (Dict.keys d) -> exists v, Dict.get k d = Some v.
Proof.
  induction d as [|[k' v] d IH]; simpl; [tauto|].
  intros H. destruct (String.eqb k k') eqn:E; [eauto|].
  destruct H as [H|H]; [|auto].
  subst. now rewrite String.eqb_refl in E.
Qed.

Lemma dict_get_In {V : Type} (d : Dict.t V) (k : string) (v : V) :
  Dict.get k d = Some v -> exists k', In (k', v) d.
Proof.
  induction d as [|[k' v'] d IH]; simpl; [discriminate|].
  destruct (String.eqb k k').
  - intros H; inversion H; subst; eauto.
  - intros H; destruct (IH H) as [k'' ?]; eauto.
Qed.

Lemma well_formed_get (g : Geometry) (k : string) (l : loc) :
  well_formed g -> Dict.get k (r_dict g) = Some l ->
  exists v, nth_error (arrays g) l = Some v.
Proof.
  intros W H. destruct (dict_get_In _ _ _ H) as [k' Hin].
  unfold well_formed in W. rewrite Forall_forall in W.
  specialize (W _ Hin). simpl in W.
  destruct (nth_error (arrays g) l) eqn:E; [eauto|].
  apply nth_error_None in E. lia.
Qed.

(** ** The closing loop with zero increments *)

Lemma vec_add_zero_x (v : vec) : mkvec (vx v + 0.0) (vy v) (vz v) = v.
Proof. destruct v; simpl; f_equal; lra. Qed.

Lemma vec_add_zero_y (v : vec) : mkvec (vx v) (vy v + 0.0) (vz v) = v.
Proof. destruct v; simpl; f_equal; lra. Qed.

Lemma vec_add_zero_z (v : vec) : mkvec (vx v) (vy v) (vz v + 0.0) = v.
Proof. destruct v; simpl; f_equal; lra. Qed.

Lemma iadd_item_zero (g : Geometry) (l : loc) (i : nat) (v : vec) :
  nth_error (arrays g) l = Some v -> (i < 3)%nat ->
  iadd_item l i 0.0 g = inr (tt, g).
Proof.
  intros H Hi. unfold iadd_item, bind, deref. rewrite H.
  destruct i as [|[|[|i]]]; try lia; unfold modify;
    rewrite ?vec_add_zero_x, ?vec_add_zero_y, ?vec_add_zero_z;
    now rewrite (list_set_same _ _ _ H), with_arrays_same.
Qed.

Lemma for_each_zero_shift (g : Geometry) (ks : list string) :
  well_formed g ->
  (forall k, In k ks -> In k (Dict.keys (r_dict g))) ->
  for_each ks (shift_one 0.0 0.0 0.0) g = inr (tt, g).
Proof.
  intros W. induction ks as [|k ks IH]; intros Hk; [reflexivity|].
  destruct (dict_get_in_keys _ _ (Hk k (or_introl eq_refl))) as [l Hl].
  destruct (well_formed_get _ _ _ W Hl) as [v Hv].
  cbn [for_each]. unfold shift_one. unfold bind at 1. unfold bind at 1.
  unfold getitem_r at 1. rewrite Hl.
  unfold bind at 1. rewrite (iadd_item_zero _ _ _ _ Hv) by lia.
  unfold bind at 1. unfold getitem_r at 1. rewrite Hl.
  unfold bind at 1. rewrite (iadd_item_zero _ _ _ _ Hv) by lia.
  unfold bind at 1. unfold getitem_r at 1. rewrite Hl.
  rewrite (iadd_item_zero _ _ _ _ Hv) by lia.
  apply IH. intros k' Hin. apply Hk. now right.
Qed.

(** With zero increments the loop returns the object as it found it. *)
Lemma shift_coords_zero (g : Geometry) :
  well_formed g -> shift_coords 0.0 0.0 0.0 g = inr (tt, g).
Proof.
  intros W. unfold shift_coords, bind.
  now apply for_each_zero_shift.
Qed.

(** ** What [define_geometry] returns *)

Section Outcome.

Variable direction : vec -> vec.

Lemma build_beamlines_run :
  build_beamlines direction Geometry_init = inr (tt, built direction).
Proof. reflexivity. Qed.

Lemma finished_well_formed (c s : table) :
  well_formed (finished direction c s).
Proof. unfold well_formed; simpl. repeat constructor; simpl; lia. Qed.

(** The files decide the outcome: the camera contour is read first, the
    separatrix second, and the first exception ends the call. *)
Lemma define_geometry_outcome (fs : filesystem) (config : string) :
  define_geometry direction fs config =
  match fs camera_path with
  | NoFile => inl (FileNotFoundError camera_path)
  | Unreadable => inl (PermissionError camera_path)
  | Malformed => inl (ValueError camera_path)
  | Rows c =>
      match fs (sep_path config) with
      | NoFile => inl (FileNotFoundError (sep_path config))
      | Unreadable => inl (PermissionError (sep_path config))
      | Malformed => inl (ValueError (sep_path config))
      | Rows s => inr (finished direction c s)
      end
  end.
Proof.
  unfold define_geometry, define_geometry_body, exec.
  unfold bind at 1. rewrite build_beamlines_run.
  unfold bind at 1. unfold load_contours, loadtxt.
  unfold bind at 1.
  destruct (fs camera_path) as [| | |c]; try reflexivity.
  unfold ret, bind at 1, modify. unfold bind at 1.
  destruct (fs (sep_path config)) as [| | |s]; try reflexivity.
  unfold ret, modify.
  fold (finished direction c s).
  now rewrite (shift_coords_zero _ (finished_well_formed c s)).
Qed.

Lemma define_geometry_returns (fs : filesystem) (config : string)
    (g : Geometry) :
  define_geometry direction fs config = inr g ->
  exists c s,
    fs camera_path = Rows c /\ fs (sep_path config) = Rows s /\
    g = finished direction c s.
Proof.
  rewrite define_geometry_outcome.
  destruct (fs camera_path) as [| | |c]; try discriminate.
  destruct (fs (sep_path config)) as [| | |s]; try discriminate.
  intros H; inversion H; eauto.
Qed.

End Outcome.

(** ** The closing loop with arbitrary increments

    The loop goes by name, not by array: an array stored under two names
    is incremented twice. *)

Lemma list_set_twice {A : Type} (l : list A) (n : nat) (x y : A) :
  list_set n y (list_set n x l) = list_set n y l.
Proof.
  revert n; induction l as [|z l IH]; intros [|n]; simpl; auto.
  now rewrite IH.
Qed.

Lemma well_formed_with_arrays (a : list vec) (g : Geometry) :
  length a = length (arrays g) -> well_formed g ->
  well_formed (with_arrays a g).
Proof. unfold well_formed; simpl. now intros ->. Qed.

Lemma bump_length (off : vec) (arrs : list vec) (l : loc) :
  length (bump off arrs l) = length arrs.
Proof.
  unfold bump. destruct (nth_error arrs l); auto using list_set_length.
Qed.

Lemma iadd_item_run (g : Geometry) (l : loc) (i : nat) (d : R) (v : vec) :
  nth_error (arrays g) l = Some v -> (i < 3)%nat ->
  iadd_item l i d g =
  inr (tt, with_arrays
             (list_set l
                (mkvec (if Nat.eqb i 0 then vx v + d else vx v)
                       (if Nat.eqb i 1 then vy v + d else vy v)
                       (if Nat.eqb i 2 then vz v + d else vz v))
                (arrays g)) g).
Proof.
  intros H Hi. unfold iadd_item, bind, deref. rewrite H.
  destruct i as [|[|[|i]]]; try lia; reflexivity.
Qed.

Lemma shift_one_run (g : Geometry) (key : string) (l : loc)
    (dx dy dz : R) :
  well_formed g -> Dict.get key (r_dict g) = Some l ->
  shift_one dx dy dz key g =
  inr (tt, with_arrays (bump (mkvec dx dy dz) (arrays g) l) g).
Proof.
  intros W Hl. destruct (well_formed_get _ _ _ W Hl) as [v Hv].
  assert (Hlt : (l < length (arrays g))%nat).
  { apply nth_error_Some. congruence. }
  unfold shift_one, bump. rewrite Hv.
  unfold bind at 1. unfold getitem_r at 1. rewrite Hl.
  unfold bind at 1. rewrite (iadd_item_run _ _ _ _ _ Hv) by lia.
  unfold bind at 1. unfold getitem_r at 1. cbn [r_dict with_arrays].
  rewrite Hl.
  unfold bind at 1.
  erewrite iadd_item_run;
    [| cbn [arrays with_arrays]; now apply nth_error_list_set_eq | lia].
  unfold bind at 1. unfold getitem_r at 1. cbn [r_dict with_arrays].
  rewrite Hl.
  erewrite iadd_item_run;
    [| cbn [arrays with_arrays]; apply nth_error_list_set_eq;
       now rewrite list_set_length | lia].
  cbn [arrays with_arrays Nat.eqb vx vy vz].
  now rewrite !list_set_twice.
Qed.

Lemma for_each_shift (dx dy dz : R) (ks : list string) (g : Geometry) :
  well_formed g ->
  (forall k, In k ks -> In k (Dict.keys (r_dict g))) ->
  for_each ks (shift_one dx dy dz) g =
  inr (tt, with_arrays
             (fold_left (bump (mkvec dx dy dz)) (visited (r_dict g) ks)
                (arrays g)) g).
Proof.
  revert g. induction ks as [|k ks IH]; intros g W Hk.
  - cbn. now rewrite with_arrays_same.
  - destruct (dict_get_in_keys _ _ (Hk k (or_introl eq_refl))) as [l Hl].
    cbn [for_each]. unfold bind at 1.
    rewrite (shift_one_run _ _ _ _ _ _ W Hl).
    rewrite IH.
    + cbn [r_dict arrays with_arrays visited flat_map]. rewrite Hl.
      reflexivity.
    + apply well_formed_with_arrays; [apply bump_length|assumption].
    + intros k' Hin. cbn [r_dict with_arrays]. apply Hk. now right.
Qed.

(** The whole loop: every name is visited once, in the order of the
    dictionary, and the array it refers to is incremented. *)
Lemma shift_coords_run (dx dy dz : R) (g : Geometry) :
  well_formed g ->
  shift_coords dx dy dz g =
  inr (tt, with_arrays
             (fold_left (bump (mkvec dx dy dz))
                (visited (r_dict g) (Dict.keys (r_dict g))) (arrays g)) g).
Proof.
  intros W. unfold shift_coords, bind. now apply for_each_shift.
Qed.

(** ** Lengths and distances *)

Lemma norm_one_squares (u : vec) :
  norm u = 1 -> vx u * vx u + vy u * vy u + vz u * vz u = 1.
Proof.
  unfold norm. intros H.
  set (x := vx u * vx u + vy u * vy u + vz u * vz u) in *.
  assert (Hx : 0 <= x) by (unfold x; nra).
  rewrite <- (sqrt_sqrt x Hx), H. lra.
Qed.

(** A point moved by [d >= 0] along a unit vector is [d] away. *)
Lemma distance_translate (p u : vec) (d : R) :
  norm u = 1 -> 0 <= d -> distance (vadd p (vscale d u)) p = d.
Proof.
  intros Hu Hd. apply norm_one_squares in Hu.
  unfold distance, norm, vsub, vadd, vscale; cbn [vx vy vz].
  replace ((vx p + d * vx u - vx p) * (vx p + d * vx u - vx p) +
           (vy p + d * vy u - vy p) * (vy p + d * vy u - vy p) +
           (vz p + d * vz u - vz p) * (vz p + d * vz u - vz p))
    with (d * d * (vx u * vx u + vy u * vy u + vz u * vz u)) by ring.
  rewrite Hu, Rmult_1_r. now apply sqrt_square.
Qed.

Lemma axis_direction_unit (a : vec) : norm (axis_direction a) = 1.
Proof.
  unfold norm, axis_direction; cbn [vx vy vz].
  set (al := deg2rad (vx a)). set (be := deg2rad (vy a)).
  pose proof (sin2_cos2 al) as Ha. pose proof (sin2_cos2 be) as Hb.
  unfold Rsqr in Ha, Hb.
  replace (cos al * cos be * (cos al * cos be) + sin al * sin al +
           - cos al * sin be * (- cos al * sin be))
    with (cos al * cos al * (sin be * sin be + cos be * cos be) +
          sin al * sin al) by ring.
  rewrite Hb, Rmult_1_r, Rplus_comm, Ha. apply sqrt_1.
Qed.

Lemma beamline_steps_nonneg :
  Forall (fun st => 0 <= snd st) beamline_steps.
Proof.
  unfold beamline_steps, dist_A2, dist_B2, dist_B1, dist_A1, dist_r0,
    dist_B3, dist_A3, dist_s.
  repeat constructor; cbn [snd]; lra.
Qed.

(** ** The sample run *)

Lemma sample_run :
  define_geometry axis_direction sample_fs "100_44_64" = inr sample_geometry.
Proof. now rewrite define_geometry_outcome. Qed.

Lemma sample_run' :
  define_geometry axis_direction sample_fs' "100_44_64" = inr sample_geometry.
Proof. now rewrite define_geometry_outcome. Qed.

Lemma sample_before_shift :
  before_shift axis_direction sample_fs "100_44_64" = inr sample_geometry.
Proof. reflexivity. Qed.

(** * The claims *)

(** C1.  Every coordinate computed by [add_coords] (A2, B2, B1, A1, r0 on
    the primary beamline; B3, aim, A3, slit on the secondary one) lies, in
    the returned object, at a Euclidean distance from its declared parent
    equal to the scalar distance of that call.  The calls are read off the
    history of the returned object; arithmetic is exact, and the direction
    of an angle triple is any unit vector. *)
Theorem derived_distance_is_configured
    (direction : vec -> vec) (fs : filesystem) (config : string)
    (g : Geometry) :
  (forall a, norm (direction a) = 1) ->
  define_geometry direction fs config = inr g ->
  map step_of (derived_calls (history g)) = beamline_steps /\
  Forall (fun st => apart g (fst (fst st)) (snd (fst st)) (snd st))
         beamline_steps.
Proof.
  intros Hu Hg.
  destruct (define_geometry_returns _ _ _ _ Hg) as (c & s & _ & _ & ->).
  split; [reflexivity|].
  pose proof beamline_steps_nonneg as Hd.
  unfold beamline_steps in *.
  repeat match goal with
         | H : Forall _ (_ :: _) |- _ => inversion H; clear H; subst
         end.
  cbn [snd] in *.
  repeat constructor; cbn [fst snd];
    (eexists; eexists; split; [reflexivity|split; [reflexivity|]];
     apply distance_translate; [apply Hu|assumption]).
Qed.

Lemma derived_distance_is_configured_witness :
  (forall a, norm (axis_direction a) = 1) /\
  define_geometry axis_direction sample_fs "100_44_64" = inr sample_geometry /\
  map step_of (derived_calls (history sample_geometry)) = beamline_steps /\
  Forall (fun st =>
            apart sample_geometry (fst (fst st)) (snd (fst st)) (snd st))
         beamline_steps.
Proof.
  split; [exact axis_direction_unit|].
  split; [exact sample_run|].
  exact (derived_distance_is_configured axis_direction sample_fs "100_44_64"
           sample_geometry axis_direction_unit sample_run).
Defined.

(** ** Angles and constants *)

Lemma prim_triple_value : prim_triple = mkvec 74 (-11) 0.
Proof.
  unfold prim_triple, alpha_prim, beta_prim, gamma_prim, dalpha, dbeta.
  f_equal; lra.
Qed.

Lemma vadd_vscale_collect (p u : vec) (a b : R) :
  vadd (vadd p (vscale a u)) (vscale b u) = vadd p (vscale (a + b) u).
Proof. unfold vadd, vscale; cbn [vx vy vz]. f_equal; ring. Qed.

(** C2.  The coordinates follow the fixed parent chain
    port_in -> A2 -> B2 -> B1 -> A1 -> r0 and port_out -> B3 -> aim/A3/slit:
    the recorded [add_coords] calls name exactly these predecessors, each
    stored point is its predecessor's stored point moved by the distance of
    the call along the direction of the call's angle triple, and with the
    default constants r0 is the chained computation from port_in through the
    A2, B2, B1, A1 and r0 offsets (in exact arithmetic, port_in moved by
    1.1905 along the direction of the triple (74, -11, 0)). *)
Theorem coordinates_follow_parent_chain
    (direction : vec -> vec) (fs : filesystem) (config : string)
    (g : Geometry) :
  define_geometry direction fs config = inr g ->
  map (fun c => (step_name c, step_parent c)) (derived_calls (history g)) =
    [("A2", "port_in"); ("B2", "A2"); ("B1", "B2"); ("A1", "B1");
     ("r0", "A1");
     ("B3", "port_out"); ("aim", "B3"); ("A3", "B3"); ("slit", "B3")] /\
  Forall (fun c => placed g (step_name c) (step_parent c) (step_dist c)
                     (direction (step_angles c)))
         (derived_calls (history g)) /\
  coord g "port_in" = Some (mkvec xport_in yport_in zport_in) /\
  coord g "r0" =
    Some (vadd (vadd (vadd (vadd (vadd
            (mkvec xport_in yport_in zport_in)
            (vscale dist_A2 (direction (mkvec alpha_prim beta_prim gamma_prim))))
            (vscale dist_B2 (direction (mkvec alpha_prim beta_prim gamma_prim))))
            (vscale dist_B1 (direction (mkvec alpha_prim beta_prim gamma_prim))))
            (vscale dist_A1 (direction (mkvec alpha_prim beta_prim gamma_prim))))
            (vscale dist_r0 (direction (mkvec alpha_prim beta_prim gamma_prim)))) /\
  coord g "r0" =
    Some (vadd (mkvec 1.34817 0.8658 0)
               (vscale 1.1905 (direction (mkvec 74 (-11) 0)))).
Proof.
  intros Hg.
  destruct (define_geometry_returns _ _ _ _ Hg) as (c & s & _ & _ & ->).
  split; [reflexivity|].
  split.
  { cbn [finished with_sep with_camera history built derived_calls].
    repeat constructor;
      (eexists; eexists; split; [reflexivity|split; reflexivity]). }
  split; [reflexivity|].
  split; [reflexivity|].
  change (coord (finished direction c s) "r0") with (Some (at_r0 direction)).
  f_equal.
  unfold at_r0, at_A1, at_B1, at_B2, at_A2, at_port_in.
  rewrite !vadd_vscale_collect, prim_triple_value.
  unfold xport_in, yport_in, zport_in, dist_A2, dist_B2, dist_B1, dist_A1,
    dist_r0.
  unfold vadd, vscale; cbn [vx vy vz]. f_equal; lra.
Qed.

Lemma coordinates_follow_parent_chain_witness :
  define_geometry axis_direction sample_fs "100_44_64" = inr sample_geometry /\
  map (fun c => (step_name c, step_parent c))
      (derived_calls (history sample_geometry)) =
    [("A2", "port_in"); ("B2", "A2"); ("B1", "B2"); ("A1", "B1");
     ("r0", "A1");
     ("B3", "port_out"); ("aim", "B3"); ("A3", "B3"); ("slit", "B3")] /\
  Forall (fun c => placed sample_geometry (step_name c) (step_parent c)
                     (step_dist c) (axis_direction (step_angles c)))
         (derived_calls (history sample_geometry)) /\
  coord sample_geometry "port_in" = Some (mkvec xport_in yport_in zport_in) /\
  coord sample_geometry "r0" =
    Some (vadd (vadd (vadd (vadd (vadd
            (mkvec xport_in yport_in zport_in)
            (vscale dist_A2
               (axis_direction (mkvec alpha_prim beta_prim gamma_prim))))
            (vscale dist_B2
               (axis_direction (mkvec alpha_prim beta_prim gamma_prim))))
            (vscale dist_B1
               (axis_direction (mkvec alpha_prim beta_prim gamma_prim))))
            (vscale dist_A1
               (axis_direction (mkvec alpha_prim beta_prim gamma_prim))))
            (vscale dist_r0
               (axis_direction (mkvec alpha_prim beta_prim gamma_prim)))) /\
  coord sample_geometry "r0" =
    Some (vadd (mkvec 1.34817 0.8658 0)
               (vscale 1.1905 (axis_direction (mkvec 74 (-11) 0)))).
Proof.
  split; [exact sample_run|].
  exact (coordinates_follow_parent_chain axis_direction sample_fs "100_44_64"
           sample_geometry sample_run).
Defined.

(** C3.  For a fixed configuration label and fixed contents of the two data
    files, [define_geometry] is deterministic: two calls, made in file
    systems that may differ anywhere else, have the same outcome; when they
    return, the two objects store the same coordinate under every name. *)
Theorem same_label_same_files_same_geometry
    (direction : vec -> vec) (fs1 fs2 : filesystem) (config : string) :
  fs1 camera_path = fs2 camera_path ->
  fs1 (sep_path config) = fs2 (sep_path config) ->
  define_geometry direction fs1 config = define_geometry direction fs2 config /\
  match define_geometry direction fs1 config,
        define_geometry direction fs2 config with
  | inr g1, inr g2 =>
      Forall (fun k => coord g1 k = coord g2 k /\ coord g1 k <> None)
             (Dict.keys (r_dict g1)) /\
      Dict.keys (r_dict g1) = Dict.keys (r_dict g2)
  | inl e1, inl e2 => e1 = e2
  | _, _ => False
  end.
Proof.
  intros Hc Hs.
  rewrite !define_geometry_outcome, <- Hc, <- Hs.
  split; [reflexivity|].
  destruct (fs1 camera_path) as [| | |c]; try reflexivity.
  destruct (fs1 (sep_path config)) as [| | |s]; try reflexivity.
  split; [|reflexivity].
  cbn [finished with_sep with_camera r_dict built Dict.keys map fst].
  repeat constructor; discriminate.
Qed.

Lemma same_label_same_files_same_geometry_witness :
  sample_fs camera_path = sample_fs' camera_path /\
  sample_fs (sep_path "100_44_64") = sample_fs' (sep_path "100_44_64") /\
  define_geometry axis_direction sample_fs "100_44_64" =
    define_geometry axis_direction sample_fs' "100_44_64" /\
  match define_geometry axis_direction sample_fs "100_44_64",
        define_geometry axis_direction sample_fs' "100_44_64" with
  | inr g1, inr g2 =>
      Forall (fun k => coord g1 k = coord g2 k /\ coord g1 k <> None)
             (Dict.keys (r_dict g1)) /\
      Dict.keys (r_dict g1) = Dict.keys (r_dict g2)
  | inl e1, inl e2 => e1 = e2
  | _, _ => False
  end.
Proof.
  split; [reflexivity|].
  split; [reflexivity|].
  exact (same_label_same_files_same_geometry axis_direction sample_fs
           sample_fs' "100_44_64" eq_refl eq_refl).
Defined.

(** C4 as stated fails at one point: "a label for which no
    configs/<label>.txt exists fails with a file-not-found condition".  The
    camera contour is read before the separatrix; with a camera file that has
    a non-numeric row, the call for a label without a file ends in the
    [ValueError] of the camera file, not in a file-not-found. *)
Lemma missing_label_after_malformed_camera :
  broken_camera_fs (sep_path "100_44_64") = NoFile /\
  define_geometry axis_direction broken_camera_fs "100_44_64" =
    inl (ValueError "TJII_camera.dat") /\
  ~ (forall (fs : filesystem) (config : string),
       fs (sep_path config) = NoFile ->
       exists path,
         define_geometry axis_direction fs config =
           inl (FileNotFoundError path)).
Proof.
  split; [reflexivity|].
  split; [now rewrite define_geometry_outcome|].
  intros H.
  destruct (H broken_camera_fs "100_44_64" eq_refl) as [path Hp].
  rewrite define_geometry_outcome in Hp. discriminate Hp.
Qed.

(** C4, amended.  [define_geometry] returns a populated object exactly when
    both data files load.  Otherwise it fails, with the exception
    [np.loadtxt] raises for the first file that does not load (the camera
    contour is read first, the separatrix second), passed to the caller as it
    is.  For a label without a configs/<label>.txt the call always fails; the
    failure is a file-not-found unless the camera file is there and is
    unreadable or malformed, and it is the file-not-found for
    configs/<label>.txt whenever the camera contour has loaded. *)
Theorem returns_or_first_load_error
    (direction : vec -> vec) (fs : filesystem) (config : string) :
  ((exists g, define_geometry direction fs config = inr g /\ populated g) <->
   (load_error fs camera_path = None /\
    load_error fs (sep_path config) = None)) /\
  (forall g, define_geometry direction fs config = inr g -> populated g) /\
  (forall e,
     define_geometry direction fs config = inl e <->
     (load_error fs camera_path = Some e \/
      (load_error fs camera_path = None /\
       load_error fs (sep_path config) = Some e))) /\
  (fs (sep_path config) = NoFile ->
   (exists e, define_geometry direction fs config = inl e) /\
   (fs camera_path <> Unreadable -> fs camera_path <> Malformed ->
    exists path,
      define_geometry direction fs config = inl (FileNotFoundError path)) /\
   (load_error fs camera_path = None ->
    define_geometry direction fs config =
      inl (FileNotFoundError ("configs//" ++ config ++ ".txt")))).
Proof.
  assert (Hpop : forall c s, populated (finished direction c s)).
  { intros c s. unfold populated.
    repeat (split; [first [discriminate | reflexivity]|]).
    apply finished_well_formed. }
  rewrite define_geometry_outcome. unfold load_error.
  destruct (fs camera_path) as [| | |c];
    destruct (fs (sep_path config)) as [| | |s];
    (split; [split|split; [|split]]).
  all: try (intros (g & Hg & _);
            first [discriminate Hg | split; reflexivity]).
  all: try (intros [H1 H2];
            first [discriminate H1 | discriminate H2
                  | eexists; split; [reflexivity|apply Hpop]]).
  all: try (intros g Hg;
            first [discriminate Hg | inversion Hg; subst; apply Hpop]).
  all: try (intros e; split;
            [intros He;
             first [discriminate He
                   | inversion He; subst;
                     first [left; reflexivity | right; split; reflexivity]]
            |intros [H|[H1 H2]];
             first [discriminate H | discriminate H1 | discriminate H2
                   | inversion H; subst; reflexivity
                   | inversion H2; subst; reflexivity]]).
  all: intros Hn;
    first [discriminate Hn
          | split; [eexists; reflexivity|split];
            [intros Hu Hm;
             first [now elim Hu | now elim Hm | eexists; reflexivity]
            |intros Hl; first [discriminate Hl | reflexivity]]].
Qed.

(** C5.  In the returned object the angle triples of the primary-beamline
    elements (r0, A1, B1, B2, A2) are one and the same triple, and those of
    the secondary-beamline elements (aim, A3, B3, an) are one and the same
    triple. *)
Theorem grouped_angles_are_identical
    (direction : vec -> vec) (fs : filesystem) (config : string)
    (g : Geometry) :
  define_geometry direction fs config = inr g ->
  Forall (fun k => angles g k = Some (mkvec alpha_prim beta_prim gamma_prim))
         ["r0"; "A1"; "B1"; "B2"; "A2"] /\
  Forall (fun k => angles g k = Some (mkvec alpha_sec beta_sec gamma_sec))
         ["aim"; "A3"; "B3"; "an"].
Proof.
  intros Hg.
  destruct (define_geometry_returns _ _ _ _ Hg) as (c & s & _ & _ & ->).
  split; repeat constructor.
Qed.

Lemma grouped_angles_are_identical_witness :
  define_geometry axis_direction sample_fs "100_44_64" = inr sample_geometry /\
  Forall (fun k => angles sample_geometry k =
                     Some (mkvec alpha_prim beta_prim gamma_prim))
         ["r0"; "A1"; "B1"; "B2"; "A2"] /\
  Forall (fun k => angles sample_geometry k =
                     Some (mkvec alpha_sec beta_sec gamma_sec))
         ["aim"; "A3"; "B3"; "an"].
Proof.
  split; [exact sample_run|].
  exact (grouped_angles_are_identical axis_direction sample_fs "100_44_64"
           sample_geometry sample_run).
Defined.

(** ** Lookups of names that are not there *)

Lemma getitem_angles_unknown (g : Geometry) (k : string) :
  Dict.get k (angles_dict g) = None -> getitem_angles k g = inl (KeyError k).
Proof. unfold getitem_angles. now intros ->. Qed.

Lemma add_coords_unknown_parent (direction : vec -> vec) (g : Geometry)
    (name ref_point : string) (d : R) (a : vec) :
  Dict.get ref_point (r_dict g) = None ->
  add_coords direction name ref_point d a g = inl (KeyError ref_point).
Proof. unfold add_coords, bind, getitem_r. now intros ->. Qed.

(** Before [angles_dict.update], no angle triple is there to be read. *)
Example angles_before_update :
  exec (getitem_angles "A2") Geometry_init = inl (KeyError "A2").
Proof. reflexivity. Qed.

(** Out of order, the second step of the primary beamline has no parent. *)
Example add_coords_before_parent (direction : vec -> vec) :
  exec (a <- getitem_angles "B2" ;; add_coords direction "B2" "A2" dist_B2 a)
       (with_angles_dict prim_angles Geometry_init) = inl (KeyError "A2").
Proof. reflexivity. Qed.

(** C6.  Every lookup of a name in the angles mapping or in the coordinate
    mapping resolves.  A lookup of a name that is not stored raises
    [KeyError] (and a reference without an array [DanglingRef]), which ends
    the call; the construction of the beamlines, which holds every
    [add_coords] call and its lookups of angle triples and parents, runs to
    its end on the new object, with every reference point written before the
    call that names it, and whatever the files are the call never ends in a
    lookup exception. *)
Theorem every_lookup_resolves
    (direction : vec -> vec) (fs : filesystem) (config : string) :
  (exists g, build_beamlines direction Geometry_init = inr (tt, g) /\
             parents_stored_before [] (history g) = true) /\
  (forall k, define_geometry direction fs config <> inl (KeyError k)) /\
  (forall l, define_geometry direction fs config <> inl (DanglingRef l)) /\
  (forall i, define_geometry direction fs config <> inl (IndexError i)).
Proof.
  split; [eexists; split; [apply build_beamlines_run|reflexivity]|].
  rewrite define_geometry_outcome.
  destruct (fs camera_path); [| | |destruct (fs (sep_path config))];
    repeat split; intros; discriminate.
Qed.

(** ** The object before the closing loop *)

Lemma before_shift_outcome (direction : vec -> vec) (fs : filesystem)
    (config : string) :
  before_shift direction fs config =
  match fs camera_path with
  | NoFile => inl (FileNotFoundError camera_path)
  | Unreadable => inl (PermissionError camera_path)
  | Malformed => inl (ValueError camera_path)
  | Rows c =>
      match fs (sep_path config) with
      | NoFile => inl (FileNotFoundError (sep_path config))
      | Unreadable => inl (PermissionError (sep_path config))
      | Malformed => inl (ValueError (sep_path config))
      | Rows s => inr (finished direction c s)
      end
  end.
Proof.
  unfold before_shift, exec.
  unfold bind at 1. rewrite build_beamlines_run.
  unfold load_contours, loadtxt. unfold bind at 1.
  destruct (fs camera_path) as [| | |c]; try reflexivity.
  unfold ret, bind at 1, modify. unfold bind at 1.
  destruct (fs (sep_path config)) as [| | |s]; reflexivity.
Qed.

Lemma before_shift_returns (direction : vec -> vec) (fs : filesystem)
    (config : string) (g : Geometry) :
  before_shift direction fs config = inr g ->
  exists c s,
    fs camera_path = Rows c /\ fs (sep_path config) = Rows s /\
    g = finished direction c s.
Proof.
  rewrite before_shift_outcome.
  destruct (fs camera_path) as [| | |c]; try discriminate.
  destruct (fs (sep_path config)) as [| | |s]; try discriminate.
  intros H; inversion H; eauto.
Qed.

Lemma define_geometry_after_shift (direction : vec -> vec)
    (fs : filesystem) (config : string) :
  define_geometry direction fs config =
  match before_shift direction fs config with
  | inl e => inl e
  | inr g => exec (shift_coords 0.0 0.0 0.0) g
  end.
Proof.
  unfold define_geometry, before_shift, define_geometry_body, exec, bind.
  destruct (build_beamlines direction Geometry_init) as [e|[[] g1]];
    [reflexivity|].
  destruct (load_contours fs config g1) as [e|[[] g2]]; reflexivity.
Qed.

(** With increments that are not zero the array stored under both [slit]
    and [an] would be moved twice, once for each name. *)
Remark shift_coords_moves_shared_array_twice (direction : vec -> vec)
    (c s : table) (dx dy dz : R) :
  exec (shift_coords dx dy dz) (finished direction c s) =
  inr (with_arrays
         [vadd (at_port_in) (mkvec dx dy dz);
          vadd (at_A2 direction) (mkvec dx dy dz);
          vadd (at_B2 direction) (mkvec dx dy dz);
          vadd (at_B1 direction) (mkvec dx dy dz);
          vadd (at_A1 direction) (mkvec dx dy dz);
          vadd (at_r0 direction) (mkvec dx dy dz);
          vadd (at_port_out) (mkvec dx dy dz);
          vadd (at_B3 direction) (mkvec dx dy dz);
          vadd (at_aim direction) (mkvec dx dy dz);
          vadd (at_A3 direction) (mkvec dx dy dz);
          vadd (vadd (at_slit direction) (mkvec dx dy dz)) (mkvec dx dy dz)]
         (finished direction c s)).
Proof.
  unfold exec.
  now rewrite (shift_coords_run _ _ _ _ (finished_well_formed direction c s)).
Qed.

(** C7.  The closing loop adds a constant offset to every stored
    coordinate; the offset is (0, 0, 0), so every coordinate of the returned
    object is the one the loop found, and the returned object is in every
    attribute the object the loop was given. *)
Theorem zero_shift_changes_nothing
    (direction : vec -> vec) (fs : filesystem) (config : string)
    (g0 : Geometry) :
  before_shift direction fs config = inr g0 ->
  exists g,
    exec (shift_coords 0.0 0.0 0.0) g0 = inr g /\
    define_geometry direction fs config = inr g /\
    Forall (fun k => exists v,
              coord g0 k = Some v /\
              coord g k = Some (vadd v (mkvec 0.0 0.0 0.0)) /\
              coord g k = Some v)
           (Dict.keys (r_dict g0)) /\
    g = g0.
Proof.
  intros H0. exists g0.
  assert (Hx : exec (shift_coords 0.0 0.0 0.0) g0 = inr g0).
  { destruct (before_shift_returns _ _ _ _ H0) as (c & s & _ & _ & ->).
    unfold exec.
    now rewrite (shift_coords_zero _ (finished_well_formed direction c s)). }
  split; [exact Hx|].
  split; [rewrite define_geometry_after_shift, H0; exact Hx|].
  split; [|reflexivity].
  destruct (before_shift_returns _ _ _ _ H0) as (c & s & _ & _ & ->).
  cbn [finished with_sep with_camera r_dict built Dict.keys map fst].
  assert (Hz : forall v, v = vadd v (mkvec 0.0 0.0 0.0)).
  { intros [x y z]. unfold vadd; cbn [vx vy vz]. f_equal; lra. }
  repeat constructor;
    (eexists; split; [reflexivity|split; [|reflexivity]];
     rewrite <- Hz; reflexivity).
Qed.

Lemma zero_shift_changes_nothing_witness :
  before_shift axis_direction sample_fs "100_44_64" = inr sample_geometry /\
  exists g,
    exec (shift_coords 0.0 0.0 0.0) sample_geometry = inr g /\
    define_geometry axis_direction sample_fs "100_44_64" = inr g /\
    Forall (fun k => exists v,
              coord sample_geometry k = Some v /\
              coord g k = Some (vadd v (mkvec 0.0 0.0 0.0)) /\
              coord g k = Some v)
           (Dict.keys (r_dict sample_geometry)) /\
    g = sample_geometry.
Proof.
  split; [exact sample_before_shift|].
  exact (zero_shift_changes_nothing axis_direction sample_fs "100_44_64"
           sample_geometry sample_before_shift).
Defined.

(** C8.  The separatrix contour is read from the file [<label>.txt] of the
    directory [configs], [<label>] being the argument, and the camera contour
    from the file [TJII_camera.dat] of the working directory: the returned
    object holds the tables found at these two paths, and a file system that
    has the same two files gives the same object, whatever else differs. *)
Theorem contours_come_from_two_paths
    (direction : vec -> vec) (fs fs' : filesystem) (config : string)
    (g : Geometry) :
  define_geometry direction fs config = inr g ->
  fs' "TJII_camera.dat" = fs "TJII_camera.dat" ->
  fs' ("configs//" ++ config ++ ".txt") = fs ("configs//" ++ config ++ ".txt") ->
  (exists c s,
     fs "TJII_camera.dat" = Rows c /\
     fs ("configs//" ++ config ++ ".txt") = Rows s /\
     camera g = Some c /\ sep g = Some s) /\
  define_geometry direction fs' config = inr g.
Proof.
  intros Hg Hc Hs.
  destruct (define_geometry_returns _ _ _ _ Hg) as (c & s & Ec & Es & ->).
  split; [exists c, s; repeat split; assumption|].
  rewrite define_geometry_outcome.
  change camera_path with "TJII_camera.dat" in *.
  change (sep_path config) with ("configs//" ++ config ++ ".txt") in *.
  now rewrite Hc, Hs, Ec, Es.
Qed.

Lemma contours_come_from_two_paths_witness :
  define_geometry axis_direction sample_fs "100_44_64" = inr sample_geometry /\
  sample_fs' "TJII_camera.dat" = sample_fs "TJII_camera.dat" /\
  sample_fs' ("configs//" ++ "100_44_64" ++ ".txt") =
    sample_fs ("configs//" ++ "100_44_64" ++ ".txt") /\
  (exists c s,
     sample_fs "TJII_camera.dat" = Rows c /\
     sample_fs ("configs//" ++ "100_44_64" ++ ".txt") = Rows s /\
     camera sample_geometry = Some c /\ sep sample_geometry = Some s) /\
  define_geometry axis_direction sample_fs' "100_44_64" = inr sample_geometry.
Proof.
  split; [exact sample_run|].
  split; [reflexivity|].
  split; [reflexivity|].
  exact (contours_come_from_two_paths axis_direction sample_fs sample_fs'
           "100_44_64" sample_geometry sample_run eq_refl eq_refl).
Defined.




(** C10.  In the returned object the coordinate stored under [an] is the
    coordinate stored under [slit]: [an] was assigned the slit entry itself,
    not a point computed by [add_coords], so both names refer to one array;
    they were equal before the closing loop and, sharing the array, stay
    equal through it, with the zero increments of the source and with any
    others. *)
Theorem analyzer_is_the_slit
    (direction : vec -> vec) (fs : filesystem) (config : string)
    (g : Geometry) :
  define_geometry direction fs config = inr g ->
  (exists l v,
     Dict.get "an" (r_dict g) = Some l /\
     Dict.get "slit" (r_dict g) = Some l /\
     coord g "an" = Some v /\ coord g "slit" = Some v) /\
  In ("an", Direct) (history g) /\
  ~ In "an" (map step_name (derived_calls (history g))) /\
  (exists g0,
     before_shift direction fs config = inr g0 /\
     coord g0 "an" = coord g0 "slit" /\ coord g0 "an" <> None /\
     forall dx dy dz, exists g',
       exec (shift_coords dx dy dz) g0 = inr g' /\
       coord g' "an" = coord g' "slit" /\ coord g' "an" <> None).
Proof.
  intros Hg.
  destruct (define_geometry_returns _ _ _ _ Hg) as (c & s & Ec & Es & ->).
  split; [eexists; eexists; repeat split; reflexivity|].
  split.
  { cbn [finished with_sep with_camera history built]. in_list. }
  split.
  { cbn [finished with_sep with_camera history built derived_calls map
         step_name fst In].
    intuition discriminate. }
  exists (finished direction c s).
  split; [rewrite before_shift_outcome, Ec, Es; reflexivity|].
  split; [reflexivity|].
  split; [discriminate|].
  intros dx dy dz. eexists.
  split; [apply shift_coords_moves_shared_array_twice|].
  split; [reflexivity|discriminate].
Qed.

Lemma analyzer_is_the_slit_witness :
  define_geometry axis_direction sample_fs "100_44_64" = inr sample_geometry /\
  (exists l v,
     Dict.get "an" (r_dict sample_geometry) = Some l /\
     Dict.get "slit" (r_dict sample_geometry) = Some l /\
     coord sample_geometry "an" = Some v /\
     coord sample_geometry "slit" = Some v) /\
  In ("an", Direct) (history sample_geometry) /\
  ~ In "an" (map step_name (derived_calls (history sample_geometry))) /\
  (exists g0,
     before_shift axis_direction sample_fs "100_44_64" = inr g0 /\
     coord g0 "an" = coord g0 "slit" /\ coord g0 "an" <> None /\
     forall dx dy dz, exists g',
       exec (shift_coords dx dy dz) g0 = inr g' /\
       coord g' "an" = coord g' "slit" /\ coord g' "an" <> None).
Proof.
  split; [exact sample_run|].
  exact (analyzer_is_the_slit axis_direction sample_fs "100_44_64"
           sample_geometry sample_run).
Defined.

(** * Further properties of the builder *)

(** ** The closing loop, array by array *)

Lemma nth_error_list_set_other {A : Type} (l : list A) (n m : nat) (x : A) :
  n <> m -> nth_error (list_set n x l) m = nth_error l m.
Proof.
  revert n m; induction l as [|y l IH]; intros [|n] [|m] H; simpl;
    auto; try congruence.
Qed.

Lemma fold_bump_length (off : vec) (ls : list loc) (arrs : list vec) :
  length (fold_left (bump off) ls arrs) = length arrs.
Proof.
  revert arrs; induction ls as [|a ls IH]; intros arrs; [reflexivity|].
  cbn [fold_left]. now rewrite IH, bump_length.
Qed.

Lemma vadd_step (v off : vec) (n : nat) :
  vadd (vadd v off) (vscale (INR n) off) = vadd v (vscale (INR (S n)) off).
Proof.
  rewrite S_INR. unfold vadd, vscale; cbn [vx vy vz]. f_equal; ring.
Qed.

Lemma vadd_none (v off : vec) : vadd v (vscale (INR 0) off) = v.
Proof.
  destruct v. unfold vadd, vscale; cbn [vx vy vz INR]. f_equal; ring.
Qed.

(** After the rounds for [ls], an array has been incremented once for
    each occurrence of its reference in [ls]. *)
Lemma fold_bump_nth (off : vec) (ls : list loc) :
  forall (arrs : list vec) (l : loc) (v : vec),
    nth_error arrs l = Some v ->
    nth_error (fold_left (bump off) ls arrs) l =
      Some (vadd v (vscale (INR (count_occ Nat.eq_dec ls l)) off)).
Proof.
  induction ls as [|a ls IH]; intros arrs l v Hv.
  - cbn. now rewrite vadd_none.
  - cbn [fold_left]. destruct (Nat.eq_dec a l) as [->|Hne].
    + rewrite count_occ_cons_eq by reflexivity.
      unfold bump at 2. rewrite Hv.
      erewrite IH.
      * now rewrite vadd_step.
      * apply nth_error_list_set_eq. apply nth_error_Some. congruence.
    + rewrite count_occ_cons_neq by assumption.
      apply IH. unfold bump.
      destruct (nth_error arrs a); [|assumption].
      now rewrite nth_error_list_set_other.
Qed.

Lemma visited_in_keys (d : Dict.t loc) (ks : list string) (l : loc) :
  In l (visited d ks) -> exists k, In k ks /\ Dict.get k d = Some l.
Proof.
  unfold visited. rewrite in_flat_map. intros (k & Hk & Hl).
  exists k. split; [assumption|].
  destruct (Dict.get k d); [|contradiction].
  destruct Hl as [->|[]]. reflexivity.
Qed.

Lemma exec_shift_coords (g : Geometry) (dx dy dz : R) :
  well_formed g ->
  exec (shift_coords dx dy dz) g =
  inr (with_arrays
         (fold_left (bump (mkvec dx dy dz))
            (visited (r_dict g) (Dict.keys (r_dict g))) (arrays g)) g).
Proof. intros W. unfold exec. now rewrite shift_coords_run. Qed.

(** X1.  On any object whose references are all valid the closing loop
    returns; it changes no attribute but the arrays, keeps their number,
    and leaves in each array its old contents plus the increments times the
    number of names that refer to it. *)
Theorem closing_loop_adds_once_per_name
    (g : Geometry) (dx dy dz : R) :
  well_formed g ->
  exists g',
    exec (shift_coords dx dy dz) g = inr g' /\
    with_arrays (arrays g) g' = g /\
    length (arrays g') = length (arrays g) /\
    well_formed g' /\
    forall l v,
      nth_error (arrays g) l = Some v ->
      nth_error (arrays g') l =
        Some (vadd v (vscale
                        (INR (name_count (r_dict g) (Dict.keys (r_dict g)) l))
                        (mkvec dx dy dz))).
Proof.
  intros W. eexists. split; [apply (exec_shift_coords _ _ _ _ W)|].
  split; [now destruct g|].
  assert (Hlen : length (arrays (with_arrays
             (fold_left (bump (mkvec dx dy dz))
                (visited (r_dict g) (Dict.keys (r_dict g))) (arrays g)) g))
           = length (arrays g)).
  { cbn [arrays with_arrays]. apply fold_bump_length. }
  split; [exact Hlen|].
  split.
  { apply well_formed_with_arrays; [apply fold_bump_length|assumption]. }
  intros l v Hv. cbn [arrays with_arrays]. unfold name_count.
  now apply fold_bump_nth.
Qed.

Lemma closing_loop_adds_once_per_name_witness :
  well_formed sample_geometry /\
  exists g',
    exec (shift_coords 0.0025 0.05 0.0) sample_geometry = inr g' /\
    with_arrays (arrays sample_geometry) g' = sample_geometry /\
    length (arrays g') = length (arrays sample_geometry) /\
    well_formed g' /\
    forall l v,
      nth_error (arrays sample_geometry) l = Some v ->
      nth_error (arrays g') l =
        Some (vadd v (vscale
                        (INR (name_count (r_dict sample_geometry)
                                (Dict.keys (r_dict sample_geometry)) l))
                        (mkvec 0.0025 0.05 0.0))).
Proof.
  split; [apply finished_well_formed|].
  exact (closing_loop_adds_once_per_name sample_geometry 0.0025 0.05 0.0
           (finished_well_formed axis_direction sample_camera sample_sep)).
Defined.

(** X2.  Were the increments of the closing loop not zero, the object
    [define_geometry] has built by then would have every point moved by the
    increments once, except the point of the slit, stored under [slit] and
    under [an], which would be moved twice. *)
Theorem nonzero_shift_moves_slit_twice
    (direction : vec -> vec) (fs : filesystem) (config : string)
    (g0 : Geometry) (dx dy dz : R) :
  before_shift direction fs config = inr g0 ->
  exists g',
    exec (shift_coords dx dy dz) g0 = inr g' /\
    Forall (fun k => exists v,
              coord g0 k = Some v /\
              coord g' k = Some (vadd v (mkvec dx dy dz)))
           ["port_in"; "A2"; "B2"; "B1"; "A1"; "r0";
            "port_out"; "B3"; "aim"; "A3"] /\
    Forall (fun k => exists v,
              coord g0 k = Some v /\
              coord g' k = Some (vadd v (mkvec (2 * dx) (2 * dy) (2 * dz))))
           ["slit"; "an"].
Proof.
  intros H0.
  destruct (before_shift_returns _ _ _ _ H0) as (c & s & _ & _ & ->).
  eexists. split; [apply shift_coords_moves_shared_array_twice|].
  split.
  - repeat (apply Forall_cons;
            [eexists; split; reflexivity|]).
    apply Forall_nil.
  - assert (Hd : forall v,
               vadd (vadd v (mkvec dx dy dz)) (mkvec dx dy dz) =
               vadd v (mkvec (2 * dx) (2 * dy) (2 * dz))).
    { intros v. unfold vadd; cbn [vx vy vz]. f_equal; ring. }
    repeat (apply Forall_cons;
            [eexists; split; [reflexivity|rewrite <- Hd; reflexivity]|]).
    apply Forall_nil.
Qed.

Lemma nonzero_shift_moves_slit_twice_witness :
  before_shift axis_direction sample_fs "100_44_64" = inr sample_geometry /\
  exists g',
    exec (shift_coords 0.0025 0.05 0.0) sample_geometry = inr g' /\
    Forall (fun k => exists v,
              coord sample_geometry k = Some v /\
              coord g' k = Some (vadd v (mkvec 0.0025 0.05 0.0)))
           ["port_in"; "A2"; "B2"; "B1"; "A1"; "r0";
            "port_out"; "B3"; "aim"; "A3"] /\
    Forall (fun k => exists v,
              coord sample_geometry k = Some v /\
              coord g' k =
                Some (vadd v (mkvec (2 * 0.0025) (2 * 0.05) (2 * 0.0))))
           ["slit"; "an"].
Proof.
  split; [exact sample_before_shift|].
  exact (nonzero_shift_moves_slit_twice axis_direction sample_fs "100_44_64"
           sample_geometry 0.0025 0.05 0.0 sample_before_shift).
Defined.

(** ** Two runs of the closing loop *)

Lemma fold_bump_twice (a b : vec) (ls : list loc) (arrs : list vec) :
  fold_left (bump b) ls (fold_left (bump a) ls arrs) =
  fold_left (bump (vadd a b)) ls arrs.
Proof.
  apply nth_error_ext. intros l.
  destruct (nth_error arrs l) as [v|] eqn:Hv.
  - rewrite (fold_bump_nth b ls _ l _ (fold_bump_nth a ls arrs l v Hv)).
    rewrite (fold_bump_nth (vadd a b) ls arrs l v Hv).
    f_equal. unfold vadd, vscale; cbn [vx vy vz]. f_equal; ring.
  - apply nth_error_None in Hv.
    transitivity (@None vec); [|symmetry];
      apply nth_error_None; rewrite !fold_bump_length; assumption.
Qed.

Lemma fold_bump_null (off : vec) (ls : list loc) (arrs : list vec) :
  vx off = 0 -> vy off = 0 -> vz off = 0 ->
  fold_left (bump off) ls arrs = arrs.
Proof.
  intros Hx Hy Hz. apply nth_error_ext. intros l.
  destruct (nth_error arrs l) as [v|] eqn:Hv.
  - rewrite (fold_bump_nth off ls arrs l v Hv). f_equal.
    destruct v. unfold vadd, vscale; cbn [vx vy vz].
    rewrite Hx, Hy, Hz. f_equal; ring.
  - apply nth_error_None. rewrite fold_bump_length.
    now apply nth_error_None.
Qed.

Lemma exec_bind_shift (g : Geometry) (dx dy dz ex ey ez : R) :
  well_formed g ->
  exec (shift_coords dx dy dz ;; shift_coords ex ey ez) g =
  inr (with_arrays
         (fold_left (bump (mkvec ex ey ez))
            (visited (r_dict g) (Dict.keys (r_dict g)))
            (fold_left (bump (mkvec dx dy dz))
               (visited (r_dict g) (Dict.keys (r_dict g))) (arrays g))) g).
Proof.
  intros W. unfold exec, bind.
  rewrite (shift_coords_run _ _ _ _ W).
  rewrite shift_coords_run.
  - reflexivity.
  - apply well_formed_with_arrays; [apply fold_bump_length|assumption].
Qed.

(** X3.  In exact arithmetic, two runs of the closing loop, one after the
    other, do what one run with the summed increments does.  (The sums are
    sums of reals; on the machine the two ways of adding may round
    differently.) *)
Theorem closing_loops_add_up
    (g : Geometry) (dx dy dz ex ey ez : R) :
  well_formed g ->
  exec (shift_coords dx dy dz ;; shift_coords ex ey ez) g =
  exec (shift_coords (dx + ex) (dy + ey) (dz + ez)) g /\
  exists g', exec (shift_coords (dx + ex) (dy + ey) (dz + ez)) g = inr g'.
Proof.
  intros W.
  rewrite (exec_bind_shift _ _ _ _ _ _ _ W), (exec_shift_coords _ _ _ _ W).
  rewrite fold_bump_twice. split; [reflexivity|eexists; reflexivity].
Qed.

Lemma closing_loops_add_up_witness :
  well_formed sample_geometry /\
  exec (shift_coords 0.0025 0.05 0.0 ;; shift_coords 0.001 0.0 0.02)
       sample_geometry =
  exec (shift_coords (0.0025 + 0.001) (0.05 + 0.0) (0.0 + 0.02))
       sample_geometry /\
  exists g',
    exec (shift_coords (0.0025 + 0.001) (0.05 + 0.0) (0.0 + 0.02))
         sample_geometry = inr g'.
Proof.
  split; [apply finished_well_formed|].
  exact (closing_loops_add_up sample_geometry 0.0025 0.05 0.0 0.001 0.0 0.02
           (finished_well_formed axis_direction sample_camera sample_sep)).
Defined.

(** X4.  A run of the closing loop is undone by a run with the opposite
    increments: the object is again the one the first run was given. *)
Theorem closing_loop_is_undone_by_opposite
    (g : Geometry) (dx dy dz : R) :
  well_formed g ->
  exec (shift_coords dx dy dz ;; shift_coords (- dx) (- dy) (- dz)) g = inr g.
Proof.
  intros W.
  rewrite (exec_bind_shift _ _ _ _ _ _ _ W), fold_bump_twice.
  rewrite fold_bump_null; cbn [vadd vx vy vz]; try ring.
  now rewrite with_arrays_same.
Qed.

Lemma closing_loop_is_undone_by_opposite_witness :
  well_formed sample_geometry /\
  exec (shift_coords 0.0025 0.05 0.0 ;;
        shift_coords (Ropp 0.0025) (Ropp 0.05) (Ropp 0.0)) sample_geometry =
  inr sample_geometry.
Proof.
  split; [apply finished_well_formed|].
  exact (closing_loop_is_undone_by_opposite sample_geometry 0.0025 0.05 0.0
           (finished_well_formed axis_direction sample_camera sample_sep)).
Defined.

(** ** What the label and the files can change *)

Lemma other_run :
  define_geometry axis_direction other_fs "101_42_64" =
  inr (finished axis_direction sample_sep sample_camera).
Proof. now rewrite define_geometry_outcome. Qed.

(** X5.  The label and the contents of the files reach nothing but the two
    contour tables: two calls that return, for any two labels in any two
    file systems, give objects with the same parameters, angles,
    coordinates and chamber contours. *)
Theorem label_changes_contours_only
    (direction : vec -> vec) (fs1 fs2 : filesystem) (config1 config2 : string)
    (g1 g2 : Geometry) :
  define_geometry direction fs1 config1 = inr g1 ->
  define_geometry direction fs2 config2 = inr g2 ->
  same_but_contours g1 g2 /\
  (forall k, coord g1 k = coord g2 k) /\
  (forall k, angles g1 k = angles g2 k) /\
  camera g1 = match fs1 camera_path with Rows t => Some t | _ => None end /\
  sep g2 = match fs2 (sep_path config2) with Rows t => Some t | _ => None end.
Proof.
  intros H1 H2.
  destruct (define_geometry_returns _ _ _ _ H1) as (c1 & s1 & E1 & _ & ->).
  destruct (define_geometry_returns _ _ _ _ H2) as (c2 & s2 & _ & E2 & ->).
  rewrite E1, E2. unfold same_but_contours.
  repeat split; reflexivity.
Qed.

Lemma label_changes_contours_only_witness :
  define_geometry axis_direction sample_fs "100_44_64" = inr sample_geometry /\
  define_geometry axis_direction other_fs "101_42_64" =
    inr (finished axis_direction sample_sep sample_camera) /\
  same_but_contours sample_geometry
    (finished axis_direction sample_sep sample_camera) /\
  (forall k, coord sample_geometry k =
             coord (finished axis_direction sample_sep sample_camera) k) /\
  (forall k, angles sample_geometry k =
             angles (finished axis_direction sample_sep sample_camera) k) /\
  camera sample_geometry =
    match sample_fs camera_path with Rows t => Some t | _ => None end /\
  sep (finished axis_direction sample_sep sample_camera) =
    match other_fs (sep_path "101_42_64") with
    | Rows t => Some t
    | _ => None
    end.
Proof.
  split; [exact sample_run|].
  split; [exact other_run|].
  exact (label_changes_contours_only axis_direction sample_fs other_fs
           "100_44_64" "101_42_64" _ _ sample_run other_run).
Defined.

(** X6.  The camera contour is read first: when it does not load, the call
    ends in its exception whatever the label is and whatever else the file
    system holds; the separatrix file plays no part. *)
Theorem camera_failure_ends_the_call
    (direction : vec -> vec) (fs fs' : filesystem) (config config' : string) :
  load_error fs camera_path <> None ->
  fs' camera_path = fs camera_path ->
  define_geometry direction fs' config' = define_geometry direction fs config /\
  exists e,
    load_error fs camera_path = Some e /\
    define_geometry direction fs config = inl e.
Proof.
  intros Hl Hc. rewrite !define_geometry_outcome, Hc.
  unfold load_error in *.
  destruct (fs camera_path); try (split; [reflexivity|eauto]).
  now elim Hl.
Qed.

Lemma camera_failure_ends_the_call_witness :
  load_error broken_camera_fs camera_path <> None /\
  sample_fs_bad_camera camera_path = broken_camera_fs camera_path /\
  define_geometry axis_direction sample_fs_bad_camera "100_44_64" =
    define_geometry axis_direction broken_camera_fs "no_such_label" /\
  exists e,
    load_error broken_camera_fs camera_path = Some e /\
    define_geometry axis_direction broken_camera_fs "no_such_label" = inl e.
Proof.
  split; [discriminate|].
  split; [reflexivity|].
  exact (camera_failure_ends_the_call axis_direction broken_camera_fs
           sample_fs_bad_camera "no_such_label" "100_44_64"
           ltac:(discriminate) eq_refl).
Defined.

(** ** The path of the separatrix file *)

Lemma string_length_append (s t : string) :
  String.length (s ++ t) = (String.length s + String.length t)%nat.
Proof. induction s as [|a s IH]; simpl; [reflexivity|now rewrite IH]. Qed.

Lemma string_append_same_tail (s1 s2 t : string) :
  (s1 ++ t = s2 ++ t)%string -> s1 = s2.
Proof.
  revert s2; induction s1 as [|a s1 IH]; intros [|b s2] H; simpl in H.
  - reflexivity.
  - apply (f_equal String.length) in H. simpl in H.
    rewrite string_length_append in H. lia.
  - apply (f_equal String.length) in H. simpl in H.
    rewrite string_length_append in H. lia.
  - inversion H; subst. f_equal. now apply IH.
Qed.

(** X7.  The label goes into the path as it is, between [configs//] and
    [.txt]: two labels name the same separatrix file only if they are the
    same label; the path is thirteen characters longer than the
    label. *)
Theorem separatrix_path_determines_label (config1 config2 : string) :
  (sep_path config1 = sep_path config2 <-> config1 = config2) /\
  String.length (sep_path config1) = (String.length config1 + 13)%nat.
Proof.
  split; [split|].
  - unfold sep_path. intros H. cbn [String.append] in H.
    inversion H as [H']. now apply string_append_same_tail in H'.
  - now intros ->.
  - unfold sep_path. rewrite !string_length_append. simpl. lia.
Qed.


(** ** The beamlines as straight lines *)

Lemma along_zero (p u : vec) : along p u 0 = p.
Proof.
  destruct p. unfold along, vadd, vscale; cbn [vx vy vz]. f_equal; ring.
Qed.

Lemma along_along (p u : vec) (a b : R) :
  vadd (along p u a) (vscale b u) = along p u (a + b).
Proof. apply vadd_vscale_collect. Qed.

(** Two points of one line through [p] with unit direction [u] are as far
    apart as their positions on the line. *)
Lemma distance_along (p u : vec) (a b : R) :
  norm u = 1 -> distance (along p u a) (along p u b) = Rabs (a - b).
Proof.
  intros Hu. apply norm_one_squares in Hu.
  unfold distance, norm, along, vsub, vadd, vscale; cbn [vx vy vz].
  replace ((vx p + a * vx u - (vx p + b * vx u)) *
           (vx p + a * vx u - (vx p + b * vx u)) +
           (vy p + a * vy u - (vy p + b * vy u)) *
           (vy p + a * vy u - (vy p + b * vy u)) +
           (vz p + a * vz u - (vz p + b * vz u)) *
           (vz p + a * vz u - (vz p + b * vz u)))
    with (Rsqr (a - b) * (vx u * vx u + vy u * vy u + vz u * vz u))
    by (unfold Rsqr; ring).
  rewrite Hu, Rmult_1_r. apply sqrt_Rsqr_abs.
Qed.

Lemma primary_points_on_line (direction : vec -> vec) (c s : table) :
  Forall (fun st =>
            coord (finished direction c s) (fst st) =
              Some (along at_port_in (direction prim_triple) (snd st)))
         primary_stations.
Proof.
  unfold primary_stations.
  repeat (apply Forall_cons;
    [read_coord; f_equal;
     unfold at_r0, at_A1, at_B1, at_B2, at_A2;
     fold (along at_port_in (direction prim_triple) dist_A2);
     rewrite ?along_along, ?along_zero; reflexivity|]).
  apply Forall_nil.
Qed.

Lemma secondary_points_on_line (direction : vec -> vec) (c s : table) :
  Forall (fun st =>
            coord (finished direction c s) (fst st) =
              Some (along at_port_out (direction sec_triple) (snd st)))
         secondary_stations.
Proof.
  unfold secondary_stations.
  repeat (apply Forall_cons;
    [read_coord; f_equal;
     unfold at_slit, at_A3, at_aim, at_B3;
     fold (along at_port_out (direction sec_triple) dist_B3);
     rewrite ?along_along, ?along_zero; reflexivity|]).
  apply Forall_nil.
Qed.

(** Distances between the points of a list of stations of one line. *)
Lemma stations_apart (g : Geometry) (p u : vec)
    (stations : list (string * R)) :
  norm u = 1 ->
  Forall (fun st => coord g (fst st) = Some (along p u (snd st))) stations ->
  Forall (fun s1 =>
            Forall (fun s2 =>
                      apart g (fst s1) (fst s2) (Rabs (snd s1 - snd s2)))
                   stations)
         stations.
Proof.
  intros Hu H. rewrite Forall_forall in H.
  apply Forall_forall. intros s1 H1. apply Forall_forall. intros s2 H2.
  exists (along p u (snd s1)), (along p u (snd s2)).
  split; [now apply H|]. split; [now apply H|].
  now apply distance_along.
Qed.

(** X8.  The points of the primary beamline lie on one line through the
    injection port, each at the summed distances of the [add_coords] calls
    that lead to it; with a unit direction any two of them are as far apart
    as their positions differ, and r0 is the five distances together away
    from the port. *)
Theorem primary_beamline_is_a_line
    (direction : vec -> vec) (fs : filesystem) (config : string)
    (g : Geometry) :
  (forall a, norm (direction a) = 1) ->
  define_geometry direction fs config = inr g ->
  Forall (fun st =>
            coord g (fst st) =
              Some (along (mkvec xport_in yport_in zport_in)
                          (direction (mkvec alpha_prim beta_prim gamma_prim))
                          (snd st)))
         primary_stations /\
  Forall (fun s1 =>
            Forall (fun s2 =>
                      apart g (fst s1) (fst s2) (Rabs (snd s1 - snd s2)))
                   primary_stations)
         primary_stations /\
  apart g "r0" "port_in" (dist_A2 + dist_B2 + dist_B1 + dist_A1 + dist_r0).
Proof.
  intros Hu Hg.
  destruct (define_geometry_returns _ _ _ _ Hg) as (c & s & _ & _ & ->).
  pose proof (primary_points_on_line direction c s) as Hp.
  split; [exact Hp|].
  split; [exact (stations_apart _ _ _ _ (Hu _) Hp)|].
  exists (along at_port_in (direction prim_triple)
            (dist_A2 + dist_B2 + dist_B1 + dist_A1 + dist_r0)),
         (along at_port_in (direction prim_triple) 0).
  unfold primary_stations in Hp. rewrite Forall_forall in Hp.
  split; [apply (Hp ("r0", _)); in_list|].
  split; [apply (Hp ("port_in", _)); in_list|].
  rewrite (distance_along _ _ _ _ (Hu _)), Rminus_0_r.
  apply Rabs_right.
  unfold dist_A2, dist_B2, dist_B1, dist_A1, dist_r0. lra.
Qed.

Lemma primary_beamline_is_a_line_witness :
  (forall a, norm (axis_direction a) = 1) /\
  define_geometry axis_direction sample_fs "100_44_64" = inr sample_geometry /\
  Forall (fun st =>
            coord sample_geometry (fst st) =
              Some (along (mkvec xport_in yport_in zport_in)
                      (axis_direction (mkvec alpha_prim beta_prim gamma_prim))
                      (snd st)))
         primary_stations /\
  Forall (fun s1 =>
            Forall (fun s2 =>
                      apart sample_geometry (fst s1) (fst s2)
                            (Rabs (snd s1 - snd s2)))
                   primary_stations)
         primary_stations /\
  apart sample_geometry "r0" "port_in"
        (dist_A2 + dist_B2 + dist_B1 + dist_A1 + dist_r0).
Proof.
  split; [exact axis_direction_unit|].
  split; [exact sample_run|].
  exact (primary_beamline_is_a_line axis_direction sample_fs "100_44_64"
           sample_geometry axis_direction_unit sample_run).
Defined.

(** X9.  The points of the secondary beamline lie on one line through the
    output port: B3 at its distance from the port, aim, A3 and the slit
    (with an) at theirs from B3; with a unit direction any two are as far
    apart as their positions differ, and aim sits between B3 and A3, 0.075
    short of A3. *)
Theorem secondary_beamline_is_a_line
    (direction : vec -> vec) (fs : filesystem) (config : string)
    (g : Geometry) :
  (forall a, norm (direction a) = 1) ->
  define_geometry direction fs config = inr g ->
  Forall (fun st =>
            coord g (fst st) =
              Some (along (mkvec xport_out yport_out zport_out)
                          (direction (mkvec alpha_sec beta_sec gamma_sec))
                          (snd st)))
         secondary_stations /\
  Forall (fun s1 =>
            Forall (fun s2 =>
                      apart g (fst s1) (fst s2) (Rabs (snd s1 - snd s2)))
                   secondary_stations)
         secondary_stations /\
  apart g "aim" "B3" (dist_A3 - 0.075) /\
  apart g "A3" "aim" 0.075 /\
  apart g "A3" "B3" (dist_A3 - 0.075 + 0.075).
Proof.
  intros Hu Hg.
  destruct (define_geometry_returns _ _ _ _ Hg) as (c & s & _ & _ & ->).
  pose proof (secondary_points_on_line direction c s) as Hp.
  split; [exact Hp|].
  split; [exact (stations_apart _ _ _ _ (Hu _) Hp)|].
  unfold secondary_stations in Hp. rewrite Forall_forall in Hp.
  assert (Hpair : forall k1 t1 k2 t2 d,
             In (k1, t1) secondary_stations ->
             In (k2, t2) secondary_stations ->
             0 <= t1 - t2 -> d = t1 - t2 ->
             apart (finished direction c s) k1 k2 d).
  { intros k1 t1 k2 t2 d H1 H2 Hpos ->.
    exists (along at_port_out (direction sec_triple) t1),
           (along at_port_out (direction sec_triple) t2).
    split; [apply (Hp (k1, t1) H1)|].
    split; [apply (Hp (k2, t2) H2)|].
    rewrite (distance_along _ _ _ _ (Hu _)).
    now apply Rabs_right, Rle_ge. }
  repeat split.
  - eapply Hpair; [unfold secondary_stations; in_list
                  |unfold secondary_stations; in_list| |];
      unfold dist_B3, dist_A3; lra.
  - eapply Hpair; [unfold secondary_stations; in_list
                  |unfold secondary_stations; in_list| |];
      unfold dist_B3, dist_A3; lra.
  - eapply Hpair; [unfold secondary_stations; in_list
                  |unfold secondary_stations; in_list| |];
      unfold dist_B3, dist_A3; lra.
Qed.

Lemma secondary_beamline_is_a_line_witness :
  (forall a, norm (axis_direction a) = 1) /\
  define_geometry axis_direction sample_fs "100_44_64" = inr sample_geometry /\
  Forall (fun st =>
            coord sample_geometry (fst st) =
              Some (along (mkvec xport_out yport_out zport_out)
                      (axis_direction (mkvec alpha_sec beta_sec gamma_sec))
                      (snd st)))
         secondary_stations /\
  Forall (fun s1 =>
            Forall (fun s2 =>
                      apart sample_geometry (fst s1) (fst s2)
                            (Rabs (snd s1 - snd s2)))
                   secondary_stations)
         secondary_stations /\
  apart sample_geometry "aim" "B3" (dist_A3 - 0.075) /\
  apart sample_geometry "A3" "aim" 0.075 /\
  apart sample_geometry "A3" "B3" (dist_A3 - 0.075 + 0.075).
Proof.
  split; [exact axis_direction_unit|].
  split; [exact sample_run|].
  exact (secondary_beamline_is_a_line axis_direction sample_fs "100_44_64"
           sample_geometry axis_direction_unit sample_run).
Defined.

(** X10.  The point aim is placed from B3, not from the output port: it is
    [dist_B3 + (dist_A3 - 0.075)], that is 0.347, away from the port, and
    the constant [dist_aim] (0.166, "distance from port to aim") is not that
    distance. *)
Theorem aim_is_not_dist_aim_from_port
    (direction : vec -> vec) (fs : filesystem) (config : string)
    (g : Geometry) :
  (forall a, norm (direction a) = 1) ->
  define_geometry direction fs config = inr g ->
  apart g "aim" "port_out" (dist_B3 + (dist_A3 - 0.075)) /\
  dist_B3 + (dist_A3 - 0.075) = 0.347 /\
  ~ apart g "aim" "port_out" dist_aim.
Proof.
  intros Hu Hg.
  destruct (define_geometry_returns _ _ _ _ Hg) as (c & s & _ & _ & ->).
  pose proof (secondary_points_on_line direction c s) as Hp.
  unfold secondary_stations in Hp. rewrite Forall_forall in Hp.
  assert (Ha : coord (finished direction c s) "aim" =
               Some (along at_port_out (direction sec_triple)
                       (dist_B3 + (dist_A3 - 0.075)))).
  { apply (Hp ("aim", _)). in_list. }
  assert (Hq : coord (finished direction c s) "port_out" =
               Some (along at_port_out (direction sec_triple) 0)).
  { apply (Hp ("port_out", _)). in_list. }
  assert (Hd : distance
                 (along at_port_out (direction sec_triple)
                    (dist_B3 + (dist_A3 - 0.075)))
                 (along at_port_out (direction sec_triple) 0) =
               dist_B3 + (dist_A3 - 0.075)).
  { rewrite (distance_along _ _ _ _ (Hu _)), Rminus_0_r.
    apply Rabs_right. unfold dist_B3, dist_A3. lra. }
  split; [eexists; eexists; split; [exact Ha|split; [exact Hq|exact Hd]]|].
  split; [unfold dist_B3, dist_A3; lra|].
  intros (p & q & Hp1 & Hq1 & Hpq).
  rewrite Ha in Hp1. rewrite Hq in Hq1.
  inversion Hp1; inversion Hq1; subst p q.
  rewrite Hd in Hpq. unfold dist_B3, dist_A3, dist_aim in Hpq. lra.
Qed.

Lemma aim_is_not_dist_aim_from_port_witness :
  (forall a, norm (axis_direction a) = 1) /\
  define_geometry axis_direction sample_fs "100_44_64" = inr sample_geometry /\
  apart sample_geometry "aim" "port_out" (dist_B3 + (dist_A3 - 0.075)) /\
  dist_B3 + (dist_A3 - 0.075) = 0.347 /\
  ~ apart sample_geometry "aim" "port_out" dist_aim.
Proof.
  split; [exact axis_direction_unit|].
  split; [exact sample_run|].
  exact (aim_is_not_dist_aim_from_port axis_direction sample_fs "100_44_64"
           sample_geometry axis_direction_unit sample_run).
Defined.

(** X11.  Every name that has an angle triple has a coordinate, but not the
    other way round: the two ports and the slit have a coordinate and no
    angle triple, so a reader that goes through the coordinate names and
    asks for the angles of each finds none for exactly these three. *)
Theorem names_without_angles
    (direction : vec -> vec) (fs : filesystem) (config : string)
    (g : Geometry) :
  define_geometry direction fs config = inr g ->
  (forall k, angles g k <> None -> coord g k <> None) /\
  filter (fun k => match angles g k with None => true | Some _ => false end)
         (Dict.keys (r_dict g)) = ["port_in"; "port_out"; "slit"] /\
  Forall (fun k => exec (getitem_angles k) g = inl (KeyError k))
         ["port_in"; "port_out"; "slit"].
Proof.
  intros Hg.
  destruct (define_geometry_returns _ _ _ _ Hg) as (c & s & _ & _ & ->).
  split; [|split; [reflexivity|repeat constructor]].
  intros k. unfold angles.
  cbn [finished with_sep with_camera built angles_dict Dict.get].
  repeat match goal with
         | |- context [String.eqb k ?n] =>
             destruct (String.eqb_spec k n) as [->|?];
             [intros _; read_coord; discriminate|]
         end.
  intros H. now elim H.
Qed.

Lemma names_without_angles_witness :
  define_geometry axis_direction sample_fs "100_44_64" = inr sample_geometry /\
  (forall k, angles sample_geometry k <> None ->
             coord sample_geometry k <> None) /\
  filter (fun k => match angles sample_geometry k with
                   | None => true
                   | Some _ => false
                   end)
         (Dict.keys (r_dict sample_geometry)) =
    ["port_in"; "port_out"; "slit"] /\
  Forall (fun k => exec (getitem_angles k) sample_geometry = inl (KeyError k))
         ["port_in"; "port_out"; "slit"].
Proof.
  split; [exact sample_run|].
  exact (names_without_angles axis_direction sample_fs "100_44_64"
           sample_geometry sample_run).
Defined.



